(** * checksb: a differential SQL test harness

    Shallow embedding of [src/checksb/checksb.py] and the properties of its
    statement splitter, test-identifier extraction, output classifier,
    provisioner, comparator and orchestrator.

    Text is modelled as [string]: a Python [str] whose code points lie in
    the range 0..255, one [ascii] per code point.  The character classes
    below are the ones CPython uses for these code points. *)

From Stdlib Require Import String Ascii List Bool ZArith NArith Lia.
Import ListNotations.
Local Open Scope list_scope.
Local Open Scope string_scope.

(** ** Python [str] operations used by the script *)

Module PyStr.

(** Code point of a character. *)
Definition ord (c : ascii) : N := N_of_ascii c.

Definition between (lo hi : N) (n : N) : bool := (lo <=? n)%N && (n <=? hi)%N.

(** [str.isspace] (and the class [\s] of [re]) on code points below 256:
    TAB, LF, VT, FF, CR, FS, GS, RS, US, SPACE, NEL and NBSP. *)
Definition isspace (c : ascii) : bool :=
  let n := ord c in
  between 9 13 n || between 28 32 n || (n =? 133)%N || (n =? 160)%N.

(** [str.lower] on one code point below 256: A-Z and the Latin-1 capitals
    (U+00C0..U+00DE except the multiplication sign U+00D7) move up by 32. *)
Definition lower_char (c : ascii) : ascii :=
  let n := ord c in
  if between 65 90 n || (between 192 222 n && negb (n =? 215)%N)
  then ascii_of_N (n + 32) else c.

Fixpoint lower (s : string) : string :=
  match s with
  | EmptyString => EmptyString
  | String c r => String (lower_char c) (lower r)
  end.

(** [s.startswith(p)] *)
Fixpoint startswith (p s : string) : bool :=
  match p, s with
  | EmptyString, _ => true
  | String a p', String b s' => Ascii.eqb a b && startswith p' s'
  | String _ _, EmptyString => false
  end.

(** [needle in hay]: substring test (case-sensitive). *)
Fixpoint contains (needle hay : string) : bool :=
  startswith needle hay ||
  match hay with
  | EmptyString => false
  | String _ r => contains needle r
  end.

(** [s.split(sep)] for a one-character separator: never returns the empty
    list, [''.split(';') == ['']]. *)
Fixpoint split (sep : ascii) (s : string) : list string :=
  match s with
  | EmptyString => [EmptyString]
  | String c r =>
      if Ascii.eqb c sep then EmptyString :: split sep r
      else match split sep r with
           | [] => [String c EmptyString]
           | f :: fs => String c f :: fs
           end
  end.

(** [sep.join(parts)] *)
Fixpoint join (sep : string) (parts : list string) : string :=
  match parts with
  | [] => EmptyString
  | [p] => p
  | p :: ps => p ++ sep ++ join sep ps
  end.

Fixpoint lstrip (s : string) : string :=
  match s with
  | EmptyString => EmptyString
  | String c r => if isspace c then lstrip r else s
  end.

Fixpoint rstrip (s : string) : string :=
  match s with
  | EmptyString => EmptyString
  | String c r =>
      match rstrip r with
      | EmptyString => if isspace c then EmptyString else String c EmptyString
      | r' => String c r'
      end
  end.

(** [s.strip()] *)
Definition strip (s : string) : string := rstrip (lstrip s).

(** Truth value of a [str]: non-empty. *)
Definition truthy (s : string) : bool :=
  match s with EmptyString => false | String _ _ => true end.

(** [a or b] on strings. *)
Definition or_else (a b : string) : string := if truthy a then a else b.

Fixpoint all_chars (p : ascii -> bool) (s : string) : bool :=
  match s with
  | EmptyString => true
  | String c r => p c && all_chars p r
  end.

End PyStr.

(** ** The fragment of [re] used by the script

    A pattern is a sequence of character-class items, each matched once or
    under a greedy star, each inside or outside capture group 1.  [x+] is
    [x x*].  The matcher backtracks the way [re] does: a star first tries to
    take one more character and falls back to the rest of the pattern. *)

Module PyRe.
Import PyStr.

Inductive quant := Once | Star.

Record item := Item { cls : ascii -> bool; rep : quant; captured : bool }.

Definition keep (it : item) (c : ascii) (g : string) : string :=
  if captured it then String c g else g.

(** [match_here p s]: match [p] anchored at the start of [s]; the result is
    the text of group 1. *)
Fixpoint match_here (p : list item) : string -> option string :=
  match p with
  | [] => fun _ => Some EmptyString
  | it :: p' =>
      match rep it with
      | Once => fun s =>
          match s with
          | String c r =>
              if cls it c then option_map (keep it c) (match_here p' r) else None
          | EmptyString => None
          end
      | Star =>
          fix star (s : string) : option string :=
            match s with
            | String c r =>
                if cls it c then
                  match star r with
                  | Some g => Some (keep it c g)
                  | None => match_here p' s
                  end
                else match_here p' s
            | EmptyString => match_here p' s
            end
      end
  end.

(** [re.search(p, s)]: the match at the leftmost start position. *)
Fixpoint search (p : list item) (s : string) : option string :=
  match match_here p s with
  | Some g => Some g
  | None =>
      match s with
      | EmptyString => None
      | String _ r => search p r
      end
  end.

Definition lit (c : ascii) : item := Item (Ascii.eqb c) Once false.

(** [\w] on code points below 256: digits, letters, underscore, and the
    Latin-1 letters and numerics. *)
Definition isword (c : ascii) : bool :=
  let n := ord c in
  between 48 57 n || between 65 90 n || (n =? 95)%N || between 97 122 n ||
  (n =? 170)%N || between 178 179 n || (n =? 181)%N || between 185 186 n ||
  between 188 190 n || between 192 214 n || between 216 246 n ||
  between 248 255 n.

(** The class [[\w-]]. *)
Definition word_or_dash (c : ascii) : bool := isword c || Ascii.eqb c "-".

End PyRe.


(** ** Effects: the console, the clock, files and child processes *)

Module Eff.

(** What [subprocess.run(..., capture_output=True, check=False)] returns. *)
Record CompletedProcess := mkCompleted
  { returncode : Z; stdout : string; stderr : string }.

(** Python exceptions that derive from [Exception].  [SystemExit] does not:
    it is the [Exit] outcome below. *)
Inductive exn :=
| CalledProcessError (err : string)
| OtherException (msg : string).

Definition exn_str (e : exn) : string :=
  match e with CalledProcessError m => m | OtherException m => m end.

(** The environment the script runs in.  [subprocess_run] and [open_read]
    either succeed or raise an exception other than [CalledProcessError]
    (with [check=False] that one is never raised); [colored] is termcolor's;
    [format_2f] renders a duration with the format [.2f]. *)
Record Sys := mkSys
  { World : Type;
    Time : Type;
    time_sub : Time -> Time -> Time;
    format_2f : Time -> string;
    colored : string -> string -> string;
    subprocess_run : list string -> World -> (CompletedProcess + string) * World;
    open_read : string -> World -> (string + string) * World;
    time_time : World -> Time * World }.

Inductive event (T : Type) :=
| Printed (text : string)
| Spawned (argv : list string)
| Opened (path : string)
| Clock (t : T).
Arguments Printed {T} text.
Arguments Spawned {T} argv.
Arguments Opened {T} path.
Arguments Clock {T} t.

Inductive outcome (A : Type) :=
| Ret (a : A)
| Exit (code : Z)
| Raise (e : exn).
Arguments Ret {A} a.
Arguments Exit {A} code.
Arguments Raise {A} e.

Section Monad.
Context {sys : Sys}.

Record result (A : Type) := mkResult
  { out : outcome A; final : World sys; trace : list (event (Time sys)) }.
Arguments mkResult {A} out final trace.
Arguments out {A} r.
Arguments final {A} r.
Arguments trace {A} r.

(** A computation: from the world before to an outcome, the world after
    and the events in between. *)
Definition M (A : Type) : Type := World sys -> result A.

Definition ret {A} (a : A) : M A := fun w => mkResult (Ret a) w [].

Definition bind {A B} (m : M A) (k : A -> M B) : M B := fun w =>
  let r := m w in
  match out r with
  | Ret a =>
      let r' := k a (final r) in
      mkResult (out r') (final r') (trace r ++ trace r')%list
  | Exit c => mkResult (Exit c) (final r) (trace r)
  | Raise e => mkResult (Raise e) (final r) (trace r)
  end.

(** [sys.exit(code)] *)
Definition sys_exit {A} (code : Z) : M A := fun w => mkResult (Exit code) w [].

(** [raise e] *)
Definition raise {A} (e : exn) : M A := fun w => mkResult (Raise e) w [].

(** [try: m  except <filter> as e: h e]; [SystemExit] passes through. *)
Definition try_except {A} (m : M A) (catches : exn -> bool) (h : exn -> M A) : M A :=
  fun w =>
  let r := m w in
  match out r with
  | Raise e =>
      if catches e then
        let r' := h e (final r) in
        mkResult (out r') (final r') (trace r ++ trace r')%list
      else r
  | _ => r
  end.

(** [print(text)] *)
Definition print (text : string) : M unit := fun w =>
  mkResult (Ret tt) w [Printed text].

(** [subprocess.run(argv, text=True, capture_output=True, check=False)] *)
Definition run_process (argv : list string) : M CompletedProcess := fun w =>
  let '(r, w') := subprocess_run sys argv w in
  mkResult (match r with inl cp => Ret cp | inr msg => Raise (OtherException msg) end)
           w' [Spawned argv].

(** [with open(path, "r") as file: file.read()] *)
Definition read_file (path : string) : M string := fun w =>
  let '(r, w') := open_read sys path w in
  mkResult (match r with inl txt => Ret txt | inr msg => Raise (OtherException msg) end)
           w' [Opened path].

(** [time.time()] *)
Definition now : M (Time sys) := fun w =>
  let '(t, w') := time_time sys w in mkResult (Ret t) w' [Clock t].

(** A [for] loop that updates local variables [S]. *)
Fixpoint for_fold {X S} (xs : list X) (body : X -> S -> M S) (s : S) : M S :=
  match xs with
  | [] => ret s
  | x :: xs' => bind (body x s) (for_fold xs' body)
  end.

(** [for x in xs: body x] *)
Definition for_each {X} (xs : list X) (body : X -> M unit) : M unit :=
  for_fold xs (fun x _ => body x) tt.

End Monad.

Arguments M sys A : clear implicits.
Arguments result sys A : clear implicits.
Arguments mkResult {sys A} out final trace.
Arguments out {sys A} r.
Arguments final {sys A} r.
Arguments trace {sys A} r.

End Eff.

Import PyStr PyRe Eff.

Notation "x <- m ;; k" := (bind m (fun x => k))
  (at level 61, m at next level, right associativity).
Notation "m ;; k" := (bind m (fun _ => k))
  (at level 61, right associativity).

(** ** The script *)

Module Checksb.

(** The line break. *)
Definition nl : string := String "010"%char EmptyString.

(** Command-line arguments, as [parse_arguments] returns them. *)
Record Args := mkArgs
  { database : string;
    warehouse : string;
    run_check_only : bool;
    case : string;
    runbend : bool;
    runsnow : bool }.

(** The [command] list built at the top of [execute_sql]; the default
    [warehouse=None] is [None], and [if warehouse:] is false for [None] and
    for the empty string. *)
Definition build_command (query sql_tool database : string)
    (warehouse : option string) : list string :=
  ([sql_tool] ++
   (if sql_tool =? "snowsql" then
      ["--query"; query;
       "--dbname"; database;
       "--schemaname"; "PUBLIC";
       "-o"; "output_format=tsv";
       "-o"; "header=false";
       "-o"; "timing=false";
       "-o"; "friendly=false"] ++
      match warehouse with
      | Some wh => if truthy wh then ["--warehouse"; wh] else []
      | None => []
      end
    else if sql_tool =? "bendsql" then
      [("--query=" ++ query)%string; "-D"; database]
    else []))%list.

(** The test "known error patterns" of [execute_sql]. *)
Definition error_pattern (output error : string) : bool :=
  contains "error" (lower output) || contains "error" (lower error) ||
  contains "unknown function" (lower output).

(** The pattern [r"--\s*([\w-]+):"]. *)
Definition identifier_re : list item :=
  [lit "-"; lit "-";
   Item isspace Star false;
   Item word_or_dash Once true; Item word_or_dash Star true;
   lit ":"].

(** [match.group(1).strip() if match else "Unknown Query"] *)
Definition query_identifier (query : string) : string :=
  match search identifier_re query with
  | Some g => strip g
  | None => "Unknown Query"
  end.

Section Program.
Context {sys : Sys}.

(** The body of the [try] of [execute_sql], after [subprocess.run]. *)
Definition inspect_result (query : string) (result : CompletedProcess) : M sys string :=
  let output := stdout result in
  let error := stderr result in
  if contains "DROP DATABASE" query && contains "Unknown database" (output ++ error) then
    print "Database doesn't exist, continuing with creation..." ;;
    ret output
  else if error_pattern output error then
    let error_message := "Error detected in command output: " ++ or_else output error in
    print (colored sys error_message "red") ;;
    if contains "DROP DATABASE" query then ret output
    else sys_exit 1
  else
    print "Command executed successfully. Output:" ;;
    print output ;;
    ret output.

Definition execute_sql (query sql_tool database : string)
    (warehouse : option string) : M sys string :=
  let command := build_command query sql_tool database warehouse in
  print ("Executing command: " ++ join " " command) ;;
  try_except
    (result <- run_process command ;;
     inspect_result query result)
    (fun e => match e with CalledProcessError _ => true | _ => false end)
    (fun e =>
       let error_message := sql_tool ++ " command failed: " ++ exn_str e in
       print (colored sys error_message "red") ;;
       raise e).

Definition execute_sql_scripts (sql_tool script_path database : string)
    (warehouse : option string) : M sys unit :=
  print ("Executing SQL scripts from: " ++ script_path ++ " using " ++ sql_tool) ;;
  sql_script <- read_file script_path ;;
  let queries := split ";" sql_script in
  for_each queries (fun query =>
    if truthy (strip query) then
      execute_sql query sql_tool database warehouse ;; ret tt
    else ret tt).

Definition fetch_query_results (query sql_tool database : string)
    (warehouse : option string) : M sys string :=
  result <- execute_sql query sql_tool database warehouse ;;
  ret result.

(** Entries of [failed_tests] and [passed_tests]. *)
Definition failed_test : Type := string * string * string.
Definition passed_test : Type := string * Time sys.

(** One iteration of the loop of [run_check_sql]; the state is
    [(failed_tests, passed_tests)]. *)
Definition check_query (database_name warehouse query : string)
    (tests : list failed_test * list passed_test)
    : M sys (list failed_test * list passed_test) :=
  let '(failed_tests, passed_tests) := tests in
  if truthy (strip query) then
    let query_identifier := query_identifier query in
    print (colored sys ("Preparing to run " ++ query_identifier ++ "...") "yellow") ;;
    start_time <- now ;;
    bend_result <- fetch_query_results query "bendsql" database_name None ;;
    snow_result <- fetch_query_results query "snowsql" database_name (Some warehouse) ;;
    end_time <- now ;;
    let elapsed_time := time_sub sys end_time start_time in
    if negb (bend_result =? snow_result) then
      print (colored sys ("DIFFERENCE FOUND" ++ nl) "red") ;;
      print (colored sys (query_identifier ++ ":" ++ nl ++ query) "red") ;;
      print ("Differences:" ++ nl) ;;
      print (colored sys ("bendsql:" ++ nl ++ bend_result) "red") ;;
      print (colored sys ("snowsql:" ++ nl ++ snow_result) "red") ;;
      ret ((failed_tests ++ [(query_identifier, bend_result, snow_result)])%list,
           passed_tests)
    else
      print (colored sys ("OK - " ++ query_identifier) "green") ;;
      print (colored sys bend_result "green") ;;
      ret (failed_tests,
           (passed_tests ++ [(query_identifier, elapsed_time)])%list)
  else ret (failed_tests, passed_tests).

(** The loop of [run_check_sql]: the final [(failed_tests, passed_tests)]. *)
Definition check_loop (database_name warehouse : string)
    (queries : list string)
    : M sys (list failed_test * list passed_test) :=
  for_fold queries (check_query database_name warehouse) ([], []).

(** The summary printed at the end of [run_check_sql]. *)
Definition report (failed_tests : list failed_test)
    (passed_tests : list passed_test) (total_elapsed_time : Time sys) : M sys unit :=
  (match passed_tests with
   | [] => ret tt
   | _ =>
       print (colored sys (nl ++ "Passed Tests:") "green") ;;
       for_each passed_tests (fun '(test, elapsed_time) =>
         print (colored sys
           ("OK - " ++ test ++ " (" ++ format_2f sys elapsed_time ++ "s)") "green"))
   end) ;;
  (match failed_tests with
   | [] => ret tt
   | _ =>
       print (colored sys (nl ++ "Failed Tests and their differences:") "red") ;;
       for_each failed_tests (fun '(test, bend_result, snow_result) =>
         print (colored sys ("Test: " ++ test) "red") ;;
         print (colored sys ("bendsql result:" ++ nl ++ bend_result) "red") ;;
         print (colored sys ("snowsql result:" ++ nl ++ snow_result) "red"))
   end) ;;
  print (colored sys
    (nl ++ "Total Time: " ++ format_2f sys total_elapsed_time ++ "s") "blue").

Definition run_check_sql (database_name warehouse script_path : string) : M sys unit :=
  total_start_time <- now ;;
  text <- read_file script_path ;;
  let check_queries := split ";" text in
  tests <- check_loop database_name warehouse check_queries ;;
  let '(failed_tests, passed_tests) := tests in
  total_end_time <- now ;;
  let total_elapsed_time := time_sub sys total_end_time total_start_time in
  report failed_tests passed_tests total_elapsed_time.

Definition setup_database (database_name sql_tool : string) : M sys unit :=
  (if sql_tool =? "bendsql" then
     try_except
       (let drop_query := "DROP DATABASE IF EXISTS " ++ database_name ++ ";" in
        execute_sql drop_query sql_tool "default" None ;; ret tt)
       (fun _ => true)
       (fun e =>
          print ("Warning: Could not drop database (it may not exist): " ++ exn_str e)) ;;
     let create_query := "CREATE DATABASE " ++ database_name ++ ";" in
     execute_sql create_query sql_tool "default" None ;; ret tt
   else
     let drop_query := "DROP DATABASE IF EXISTS " ++ database_name ++ ";" in
     let create_query := "CREATE DATABASE " ++ database_name ++ ";" in
     execute_sql drop_query sql_tool database_name None ;;
     execute_sql create_query sql_tool database_name None ;; ret tt) ;;
  print ("Database '" ++ database_name ++ "' has been set up.").

Definition setup_and_execute (sql_tool base_sql_dir database_name : string)
    (warehouse : option string) : M sys unit :=
  let setup_dir := if sql_tool =? "bendsql" then "bend" else "snow" in
  setup_database database_name sql_tool ;;
  execute_sql_scripts sql_tool (base_sql_dir ++ "/" ++ setup_dir ++ "/setup.sql")
    database_name warehouse ;;
  execute_sql_scripts sql_tool (base_sql_dir ++ "/action.sql")
    database_name warehouse.

(** The body of [main] after its first line [args = parse_arguments()], as
    a function of the parsed arguments. *)
Definition main (args : Args) : M sys unit :=
  let base_sql_dir := "sql/" ++ case args in
  let database_name := database args in
  let warehouse := warehouse args in
  if run_check_only args then
    let check_sql_path := base_sql_dir ++ "/check.sql" in
    run_check_sql database_name warehouse check_sql_path
  else
    (if runbend args then
       print "Setting up and executing scripts for bendsql..." ;;
       setup_and_execute "bendsql" base_sql_dir database_name None
     else if runsnow args then
       print "Setting up and executing scripts for snowsql..." ;;
       setup_and_execute "snowsql" base_sql_dir database_name (Some warehouse)
     else
       print "Setting up and executing scripts for both bendsql and snowsql..." ;;
       setup_and_execute "bendsql" base_sql_dir database_name None ;;
       setup_and_execute "snowsql" base_sql_dir database_name (Some warehouse)) ;;
    let check_sql_path := base_sql_dir ++ "/check.sql" in
    run_check_sql database_name warehouse check_sql_path.

(** [main()] in full.  [parse_arguments] is argparse at work on the command
    line: it is taken as a parameter, a computation that returns the parsed
    arguments or ends the run itself (argparse exits with code 2 on a
    command line it refuses and with code 0 after [--help]). *)
Definition main_program (parse_arguments : M sys Args) : M sys unit :=
  args <- parse_arguments ;;
  main args.

End Program.

End Checksb.

Import Checksb.

(** ** A scripted environment, to run the model on concrete inputs *)

Module Demo.

(** One canned answer: the tool, a text the command line must contain, and
    what the process then does. *)
Definition answer : Type := string * string * (CompletedProcess + string).

Fixpoint respond (table : list answer) (argv : list string) : CompletedProcess + string :=
  match table with
  | [] => inl (mkCompleted 0 "" "")
  | (tool, needle, r) :: table' =>
      if (hd "" argv =? tool) && contains needle (join " " argv) then r
      else respond table' argv
  end.

Fixpoint lookup (files : list (string * string)) (path : string) : string + string :=
  match files with
  | [] => inr ("No such file or directory: " ++ path)
  | (p, txt) :: files' => if p =? path then inl txt else lookup files' path
  end.

(** The world is a clock that ticks at every reading; processes and files
    are fixed tables and [colored] leaves the text as it is. *)
Definition scripted (files : list (string * string)) (table : list answer) : Sys :=
  {| World := nat;
     Time := nat;
     time_sub := Nat.sub;
     format_2f := fun _ => "0.00";
     colored := fun text _ => text;
     subprocess_run := fun argv w => (respond table argv, w);
     open_read := fun path w => (lookup files path, w);
     time_time := fun w => (w, S w) |}.

Definition ok (text : string) : CompletedProcess + string := inl (mkCompleted 0 text "").

(** Two engines that disagree on [SELECT 5] and agree on [SELECT 7], and a
    check script with these two statements. *)
Definition engines : list answer :=
  [("bendsql", "SELECT 5", ok "5"); ("snowsql", "SELECT 5", ok "6");
   ("bendsql", "SELECT 7", ok "7"); ("snowsql", "SELECT 7", ok "7")].

Definition lab : Sys :=
  scripted [("sql/t/check.sql", "SELECT 5;" ++ nl ++ "SELECT 7;" ++ nl)] engines.

(** Engines that report errors, with exit codes that say nothing. *)
Definition faults : list answer :=
  [("snowsql", "SELECT bad", inl (mkCompleted 0 "" "SQL compilation error"));
   ("bendsql", "SELECT odd", inl (mkCompleted 1 "42" "warning: slow"));
   ("bendsql", "DROP DATABASE gone", inl (mkCompleted 1 "" "Unknown database 'gone'"));
   ("snowsql", "DROP DATABASE held", inl (mkCompleted 0 "Error: database in use" ""));
   ("bendsql", "DROP DATABASE x", inl (mkCompleted 0 "unknown database x" ""));
   ("bendsql", "drop database x", inl (mkCompleted 1 "" "error: unknown database x"))].

Definition ward : Sys := scripted [] faults.

(** A bendsql that cannot be reached for the drop, and answers the rest. *)
Definition fresh : Sys :=
  scripted [] [("bendsql", "DROP DATABASE", inr "connection refused")].

(** A complete fixture directory for the case [t]. *)
Definition suite : Sys :=
  scripted
    [("sql/t/bend/setup.sql", "CREATE TABLE t(a int);");
     ("sql/t/snow/setup.sql", "CREATE TABLE t(a number);");
     ("sql/t/action.sql", "INSERT INTO t VALUES (7);");
     ("sql/t/check.sql", "SELECT 5;" ++ nl ++ "SELECT 7;" ++ nl)]
    engines.

Definition args_both : Args := mkArgs "db" "WH" false "t" false false.
Definition args_check : Args := mkArgs "db" "WH" true "t" false false.
Definition args_bend : Args := mkArgs "db" "WH" false "t" true false.
Definition args_snow : Args := mkArgs "db" "WH" false "t" false true.

(** Two engines whose standard outputs agree and whose error streams and
    exit codes differ. *)
Definition noisy : Sys :=
  scripted []
    [("bendsql", "SELECT odd", inl (mkCompleted 1 "42" "warning: slow"));
     ("snowsql", "SELECT odd", inl (mkCompleted 0 "42" ""))].

(** Fixtures with a statement that each engine rejects. *)
Definition broken : Sys :=
  scripted
    [("sql/t/action.sql", "SELECT 1; SELECT bad(); SELECT 3;");
     ("sql/t/check.sql", "SELECT 1; SELECT worse; SELECT 3;")]
    [("snowsql", "SELECT bad", inl (mkCompleted 0 "" "SQL compilation error"));
     ("bendsql", "SELECT worse", inl (mkCompleted 1 "" "Error: boom"))].

(** A snowsql that cannot be reached for the drop. *)
Definition offline : Sys :=
  scripted [] [("snowsql", "DROP DATABASE", inr "connection refused")].

(** Every file holds the same text; the engines are [engines]. *)
Definition uniform (text : string) : Sys :=
  {| World := nat;
     Time := nat;
     time_sub := Nat.sub;
     format_2f := fun _ => "0.00";
     colored := fun text _ => text;
     subprocess_run := fun argv w => (respond engines argv, w);
     open_read := fun _ w => (inl text, w);
     time_time := fun w => (w, S w) |}.

(** A bendsql whose two streams end and begin with the halves of a word. *)
Definition halves : Sys :=
  scripted []
    [("bendsql", "SELECT split",
      inl (mkCompleted 0 "some err" "or in two streams"))].

(** A check script of blank fragments only. *)
Definition blank : Sys :=
  scripted [("sql/t/check.sql", "  ;" ++ nl ++ ";" ++ nl)] [].

(** Engines that answer every drop with an error text. *)
Definition stubborn : Sys :=
  scripted [("sql/t/action.sql", "DROP DATABASE a; DROP DATABASE b;")]
    [("bendsql", "DROP DATABASE", inl (mkCompleted 1 "" "Error: database in use"))].

End Demo.


(** ** Derived notions used to state the properties *)

(** The statements a script yields: the fragments between terminators for
    which the test [if query.strip():] of the two loops succeeds. *)
Definition nonblank (query : string) : bool := truthy (strip query).

Definition statements (script : string) : list string :=
  filter nonblank (split ";" script).

(** The command lines a script runner issues for a script, in order. *)
Definition script_commands (sql_tool db : string) (wh : option string)
    (script : string) : list (list string) :=
  map (fun q => build_command q sql_tool db wh) (statements script).

Definition script_events {T} (sql_tool db : string) (wh : option string)
    (script : string) : list (event T) :=
  map Spawned (script_commands sql_tool db wh script).

(** The command lines the comparator issues for a check script: each
    statement to bendsql, then to snowsql. *)
Definition check_pair (db warehouse query : string) : list (list string) :=
  [build_command query "bendsql" db None;
   build_command query "snowsql" db (Some warehouse)].

Definition check_commands (db warehouse script : string) : list (list string) :=
  flat_map (check_pair db warehouse) (statements script).

(** What the comparator learns about one statement: its identifier, the two
    result texts and the elapsed time. *)
Record comparison (T : Type) := mkComparison
  { cmp_id : string; bend_text : string; snow_text : string; cmp_elapsed : T }.
Arguments mkComparison {T} _ _ _ _.
Arguments cmp_id {T} _.
Arguments bend_text {T} _.
Arguments snow_text {T} _.
Arguments cmp_elapsed {T} _.

Definition is_match {T} (c : comparison T) : bool := bend_text c =? snow_text c.

(** The entries of [failed_tests] and of [passed_tests] that a sequence of
    comparisons leaves. *)
Definition failed_of {T} (cs : list (comparison T)) : list (string * string * string) :=
  map (fun c => (cmp_id c, bend_text c, snow_text c))
      (filter (fun c => negb (is_match c)) cs).

Definition passed_of {T} (cs : list (comparison T)) : list (string * T) :=
  map (fun c => (cmp_id c, cmp_elapsed c)) (filter is_match cs).

(** No process of the environment fails to start or reports an error. *)
Definition quiet_engines (sys : Sys) : Prop :=
  forall argv (w : World sys),
    exists cp w', subprocess_run sys argv w = (inl cp, w') /\
                  error_pattern (stdout cp) (stderr cp) = false.

(** The line [execute_sql] prints before it runs the command. *)
Definition announce {T} (query sql_tool db : string) (wh : option string) : event T :=
  Printed ("Executing command: " ++ join " " (build_command query sql_tool db wh)).

(** The group text when a star, captured or not, has taken [tok]. *)
Definition grouped (cap : bool) (tok g : string) : string :=
  if cap then tok ++ g else g.

(** [s] is empty or starts with a character outside the class [p]. *)
Definition stops (p : ascii -> bool) (s : string) : Prop :=
  match s with
  | EmptyString => True
  | String c _ => p c = false
  end.

(** The tail of the pattern after the white space, and after the first
    token character. *)
Definition token_re : list item :=
  [Item word_or_dash Once true; Item word_or_dash Star true; lit ":"].

Definition token_tail_re : list item := [Item word_or_dash Star true; lit ":"].

(** [tagged tok s]: the text [s] starts with a match of the identifier
    pattern whose group is [tok], that is [--], white space, the token made
    of word characters and dashes, and a colon. *)
Definition tagged (tok s : string) : Prop :=
  exists ws post,
    s = "--" ++ ws ++ tok ++ ":" ++ post /\
    all_chars isspace ws = true /\
    tok <> "" /\
    all_chars word_or_dash tok = true.

(** No match of the pattern starts inside the prefix [pre] of [pre ++ s]. *)
Definition untagged_before (pre s : string) : Prop :=
  forall p1 p2 tok, pre = p1 ++ p2 -> p2 <> "" -> ~ tagged tok (p2 ++ s).

(** What [execute_sql] does with a completed process, as a function of the
    statement and the captured text alone. *)
Definition classify (query : string) (cp : CompletedProcess) : outcome string :=
  if contains "DROP DATABASE" query then Ret (stdout cp)
  else if error_pattern (stdout cp) (stderr cp) then Exit 1
  else Ret (stdout cp).

(** [sep_free sep s]: the separator does not occur in [s]. *)
Definition sep_free (sep : ascii) (s : string) : bool :=
  all_chars (fun c => negb (Ascii.eqb c sep)) s.

(** The pattern matches at no position inside [pre] of [pre ++ rest]. *)
Fixpoint none_before (p : list item) (pre rest : string) : bool :=
  match pre with
  | EmptyString => true
  | String _ pre' =>
      match match_here p (pre ++ rest) with
      | None => none_before p pre' rest
      | Some _ => false
      end
  end.

(** ** Observations on traces *)

Section Observations.
Context {T : Type}.

(** The command lines of the child processes, in the order they ran. *)
Fixpoint spawned (tr : list (event T)) : list (list string) :=
  match tr with
  | [] => []
  | Spawned argv :: tr' => argv :: spawned tr'
  | _ :: tr' => spawned tr'
  end.

(** The files read, in order. *)
Fixpoint opened (tr : list (event T)) : list string :=
  match tr with
  | [] => []
  | Opened path :: tr' => path :: opened tr'
  | _ :: tr' => opened tr'
  end.

(** The trace without what was printed. *)
Fixpoint silent (tr : list (event T)) : list (event T) :=
  match tr with
  | [] => []
  | Printed _ :: tr' => silent tr'
  | e :: tr' => e :: silent tr'
  end.

End Observations.

(** An observation of traces that distributes over concatenation. *)
Definition additive {T Y} (obs : list (event T) -> list Y) : Prop :=
  obs [] = [] /\ forall a b, obs (a ++ b)%list = (obs a ++ obs b)%list.

(** [prefix_of a b]: [a] is an initial segment of [b]. *)
Definition prefix_of {A} (a b : list A) : Prop := exists rest, b = (a ++ rest)%list.

(** Every process of the run [r] was started through the client [tool]. *)
Definition uses_only {sys A} (tool : string) (r : result sys A) : Prop :=
  Forall (fun argv => hd "" argv = tool) (spawned (trace r)).


(** ** Further notions *)

(** The loop of [execute_sql_scripts] over the fragments of a script. *)
Definition run_statements {sys : Sys} (sql_tool database : string)
    (warehouse : option string) (queries : list string) : M sys unit :=
  for_each queries (fun query =>
    if truthy (strip query) then
      execute_sql query sql_tool database warehouse ;; ret tt
    else ret tt).

(** The only exit code of the run [r], if it exits, is 1. *)
Definition exits_with_one {sys A} (r : result sys A) : Prop :=
  forall c, out r = Exit c -> c = 1%Z.

(** Every file can be read. *)
Definition readable_files (sys : Sys) : Prop :=
  forall path (w : World sys), exists txt w', open_read sys path w = (inl txt, w').

(** Every process starts and completes. *)
Definition processes_complete (sys : Sys) : Prop :=
  forall argv (w : World sys), exists cp w', subprocess_run sys argv w = (inl cp, w').

(** The lines of the summary of [run_check_sql]. *)
Definition passed_lines (sys : Sys) (passed_tests : list (string * Time sys))
    : list string :=
  match passed_tests with
  | [] => []
  | _ =>
      colored sys (nl ++ "Passed Tests:") "green"
      :: map (fun '(test, elapsed_time) =>
                colored sys ("OK - " ++ test ++ " (" ++ format_2f sys elapsed_time ++ "s)")
                        "green")
             passed_tests
  end.

Definition failed_lines (sys : Sys) (failed_tests : list (string * string * string))
    : list string :=
  match failed_tests with
  | [] => []
  | _ =>
      colored sys (nl ++ "Failed Tests and their differences:") "red"
      :: flat_map (fun '(test, bend_result, snow_result) =>
                     [colored sys ("Test: " ++ test) "red";
                      colored sys ("bendsql result:" ++ nl ++ bend_result) "red";
                      colored sys ("snowsql result:" ++ nl ++ snow_result) "red"])
                  failed_tests
  end.

Definition total_line (sys : Sys) (total_elapsed_time : Time sys) : string :=
  colored sys (nl ++ "Total Time: " ++ format_2f sys total_elapsed_time ++ "s") "blue".

(** The comparisons of a check script, statement by statement in the words
    of the comparator's contract: a blank fragment is skipped; a statement
    goes to bendsql and then to snowsql, between two readings of the clock,
    and gives one comparison that holds the two returned texts as they are;
    there is no result when an execution does not return. *)
Fixpoint comparisons {sys : Sys} (db wh : string) (queries : list string)
    (w : World sys) : option (list (comparison (Time sys)) * World sys) :=
  match queries with
  | [] => Some ([], w)
  | query :: rest =>
      if nonblank query then
        let rb := fetch_query_results query "bendsql" db None (snd (time_time sys w)) in
        match out rb with
        | Ret bend =>
            let rs := fetch_query_results query "snowsql" db (Some wh) (final rb) in
            match out rs with
            | Ret snow =>
                let elapsed := time_sub sys (fst (time_time sys (final rs)))
                                            (fst (time_time sys w)) in
                match comparisons db wh rest (snd (time_time sys (final rs))) with
                | Some (cs, w') =>
                    Some (mkComparison (query_identifier query) bend snow elapsed :: cs,
                          w')
                | None => None
                end
            | _ => None
            end
        | _ => None
        end
      else comparisons db wh rest w
  end.

(** The two commands of provisioning: bendsql is reached through the
    database [default], any other client through the database itself. *)
Definition provisioning_commands (sql_tool db : string) : list (list string) :=
  let target := if sql_tool =? "bendsql" then "default" else db in
  [build_command ("DROP DATABASE IF EXISTS " ++ db ++ ";") sql_tool target None;
   build_command ("CREATE DATABASE " ++ db ++ ";") sql_tool target None].

(** What a pipeline that returns has done, prints aside: provisioning, then
    the set-up script, then the action script. *)
Definition pipeline_events {T} (sql_tool base db : string) (wh : option string)
    (setup_script action_script : string) : list (event T) :=
  (map Spawned (provisioning_commands sql_tool db) ++
   Opened (base ++ "/" ++ (if sql_tool =? "bendsql" then "bend" else "snow")
           ++ "/setup.sql")
   :: script_events sql_tool db wh setup_script ++
   Opened (base ++ "/action.sql")
   :: script_events sql_tool db wh action_script)%list.
(** ** Text lemmas *)

Section TextLemmas.

Lemma append_empty_r (s : string) : s ++ "" = s.
Proof. induction s as [|c s IH]; simpl; [reflexivity | now rewrite IH]. Qed.

Lemma split_not_nil sep s : split sep s <> [].
Proof.
  destruct s as [|c r]; simpl; [discriminate|].
  destruct (Ascii.eqb c sep); [discriminate|].
  destruct (split sep r); discriminate.
Qed.

Lemma join_cons_char sep c f fs :
  join sep (String c f :: fs) = String c (join sep (f :: fs)).
Proof. destruct fs; reflexivity. Qed.

(** The fragments, put back together with the separator, are the text. *)
Lemma join_split sep s : join (String sep "") (split sep s) = s.
Proof.
  induction s as [|c r IH]; simpl; [reflexivity|].
  destruct (Ascii.eqb_spec c sep) as [->|Hne].
  - destruct (split sep r) as [|f fs] eqn:E; [now apply split_not_nil in E|].
    simpl in *. now rewrite IH.
  - destruct (split sep r) as [|f fs] eqn:E; [now apply split_not_nil in E|].
    rewrite join_cons_char. now rewrite IH.
Qed.

Lemma split_sep_free sep s : Forall (fun f => sep_free sep f = true) (split sep s).
Proof.
  induction s as [|c r IH]; simpl.
  - now constructor.
  - destruct (Ascii.eqb c sep) eqn:E.
    + now constructor.
    + destruct (split sep r) as [|f fs].
      * constructor; [|constructor]. unfold sep_free. simpl. now rewrite E.
      * inversion IH as [|? ? Hf Hfs]; subst. constructor; [|assumption].
        unfold sep_free in *. simpl. now rewrite E.
Qed.

Lemma split_sep_free_id sep s : sep_free sep s = true -> split sep s = [s].
Proof.
  unfold sep_free. induction s as [|c r IH]; simpl; [reflexivity|].
  intros H. apply andb_prop in H as [Hc Hr].
  apply negb_true_iff in Hc. rewrite Hc, (IH Hr). reflexivity.
Qed.

Lemma split_app_sep sep a b :
  sep_free sep a = true ->
  split sep (a ++ String sep b) = a :: split sep b.
Proof.
  unfold sep_free. induction a as [|c r IH]; simpl; intros H.
  - now rewrite Ascii.eqb_refl.
  - apply andb_prop in H as [Hc Hr]. apply negb_true_iff in Hc.
    rewrite Hc, (IH Hr). reflexivity.
Qed.

(** Splitting undoes joining, for a non-empty list of separator-free parts. *)
Lemma split_join sep parts :
  parts <> [] ->
  Forall (fun f => sep_free sep f = true) parts ->
  split sep (join (String sep "") parts) = parts.
Proof.
  induction parts as [|p ps IH]; [congruence|]. intros _ HF.
  inversion HF as [|? ? Hp Hps]; subst.
  destruct ps as [|q qs].
  - simpl. now apply split_sep_free_id.
  - change (join (String sep "") (p :: q :: qs))
      with (p ++ String sep (join (String sep "") (q :: qs))).
    rewrite split_app_sep by assumption.
    rewrite IH; [reflexivity | discriminate | assumption].
Qed.

Lemma Forall_filter {A} (P : A -> Prop) (f : A -> bool) l :
  Forall P l -> Forall P (filter f l).
Proof.
  induction 1; simpl; [constructor|]. destruct (f x); [constructor|]; assumption.
Qed.

End TextLemmas.

(** ** Trace lemmas *)

Section ObservationLemmas.
Context {T : Type}.

Lemma spawned_app (a b : list (event T)) : spawned (a ++ b) = (spawned a ++ spawned b)%list.
Proof.
  induction a as [|e a IH]; simpl; [reflexivity|].
  destruct e; simpl; now rewrite IH.
Qed.

Lemma opened_app (a b : list (event T)) : opened (a ++ b) = (opened a ++ opened b)%list.
Proof.
  induction a as [|e a IH]; simpl; [reflexivity|].
  destruct e; simpl; now rewrite IH.
Qed.

Lemma silent_app (a b : list (event T)) : silent (a ++ b) = (silent a ++ silent b)%list.
Proof.
  induction a as [|e a IH]; simpl; [reflexivity|].
  destruct e; simpl; now rewrite IH.
Qed.

Lemma spawned_silent (a : list (event T)) : spawned (silent a) = spawned a.
Proof.
  induction a as [|e a IH]; simpl; [reflexivity|].
  destruct e; simpl; now rewrite IH.
Qed.

Lemma opened_silent (a : list (event T)) : opened (silent a) = opened a.
Proof.
  induction a as [|e a IH]; simpl; [reflexivity|].
  destruct e; simpl; now rewrite IH.
Qed.

End ObservationLemmas.

(** ** Statement splitting *)

Section Splitting.

Lemma statements_nonblank script :
  Forall (fun q => nonblank q = true) (statements script).
Proof.
  unfold statements. induction (split ";" script) as [|f fs IH]; simpl.
  - constructor.
  - destruct (nonblank f) eqn:E; [constructor|]; assumption.
Qed.

Lemma nonblank_strip q : nonblank q = true <-> strip q <> "".
Proof.
  unfold nonblank. destruct (strip q); simpl; split; congruence.
Qed.

Lemma statements_sep_free script :
  Forall (fun q => sep_free ";" q = true) (statements script).
Proof. apply Forall_filter, split_sep_free. Qed.

Lemma filter_all {A} (f : A -> bool) l :
  Forall (fun x => f x = true) l -> filter f l = l.
Proof.
  induction 1 as [|x l Hx _ IH]; simpl; [reflexivity|]. now rewrite Hx, IH.
Qed.

(** Writing the statements to a file, one terminator between two of them,
    and splitting that file gives the same statements. *)
Lemma statements_join script :
  statements (join ";" (statements script)) = statements script.
Proof.
  destruct (statements script) as [|q qs] eqn:E; [reflexivity|].
  unfold statements at 1.
  rewrite split_join.
  - apply filter_all. rewrite <- E. apply statements_nonblank.
  - discriminate.
  - rewrite <- E. apply statements_sep_free.
Qed.

End Splitting.

(** ** Running the monad *)

Section MonadLemmas.
Context {sys : Sys}.

Lemma out_bind {A B} (m : M sys A) (k : A -> M sys B) w :
  out (bind m k w) =
  match out (m w) with
  | Ret a => out (k a (final (m w)))
  | Exit c => Exit c
  | Raise e => Raise e
  end.
Proof. unfold bind. destruct (out (m w)); reflexivity. Qed.

Lemma final_bind {A B} (m : M sys A) (k : A -> M sys B) w :
  final (bind m k w) =
  match out (m w) with
  | Ret a => final (k a (final (m w)))
  | _ => final (m w)
  end.
Proof. unfold bind. destruct (out (m w)); reflexivity. Qed.

Lemma trace_bind {A B} (m : M sys A) (k : A -> M sys B) w :
  trace (bind m k w) =
  (trace (m w) ++
   match out (m w) with
   | Ret a => trace (k a (final (m w)))
   | _ => []
   end)%list.
Proof. unfold bind. destruct (out (m w)); simpl; now rewrite ?app_nil_r. Qed.

Lemma read_file_eq path (w : World sys) :
  read_file path w =
  mkResult (match fst (open_read sys path w) with
            | inl txt => Ret txt
            | inr msg => Raise (OtherException msg)
            end) (snd (open_read sys path w)) [Opened path].
Proof. unfold read_file. now destruct (open_read sys path w). Qed.

Lemma now_eq (w : World sys) :
  now w = mkResult (Ret (fst (time_time sys w))) (snd (time_time sys w))
                   [Clock (fst (time_time sys w))].
Proof. unfold now. now destruct (time_time sys w). Qed.

Lemma inspect_result_out query cp (w : World sys) :
  out (inspect_result query cp w) = classify query cp.
Proof.
  unfold inspect_result, classify.
  destruct (contains "DROP DATABASE" query); simpl.
  - destruct (contains "Unknown database" _); [reflexivity|].
    destruct (error_pattern _ _); reflexivity.
  - destruct (error_pattern _ _); reflexivity.
Qed.

Lemma inspect_result_final query cp (w : World sys) : final (inspect_result query cp w) = w.
Proof.
  unfold inspect_result.
  destruct (contains "DROP DATABASE" query); simpl.
  - destruct (contains "Unknown database" _); [reflexivity|].
    destruct (error_pattern _ _); reflexivity.
  - destruct (error_pattern _ _); reflexivity.
Qed.

Lemma inspect_result_silent query cp (w : World sys) : silent (trace (inspect_result query cp w)) = [].
Proof.
  unfold inspect_result.
  destruct (contains "DROP DATABASE" query); simpl.
  - destruct (contains "Unknown database" _); [reflexivity|].
    destruct (error_pattern _ _); reflexivity.
  - destruct (error_pattern _ _); reflexivity.
Qed.

(** [execute_sql] runs exactly one process; what it returns depends on the
    captured text only. *)
Lemma execute_sql_run query sql_tool db wh w :
  let cmd := build_command query sql_tool db wh in
  let r := execute_sql query sql_tool db wh w in
  final r = snd (subprocess_run sys cmd w) /\
  silent (trace r) = [Spawned cmd] /\
  out r = match fst (subprocess_run sys cmd w) with
          | inl cp => classify query cp
          | inr msg => Raise (OtherException msg)
          end.
Proof.
  unfold execute_sql. cbv zeta.
  set (cmd := build_command query sql_tool db wh).
  unfold try_except, bind, run_process, print. cbn [out final trace].
  destruct (subprocess_run sys cmd w) as [[cp|msg] w']; cbn [out final trace fst snd].
  - pose proof (inspect_result_out query cp w') as Ho.
    pose proof (inspect_result_final query cp w') as Hf.
    pose proof (inspect_result_silent query cp w') as Hs.
    destruct (inspect_result query cp w') as [o f t]; cbn [out final trace] in *.
    subst. unfold classify.
    destruct (contains "DROP DATABASE" query), (error_pattern (stdout cp) (stderr cp));
      cbn [out final trace app silent]; rewrite ?Hs; repeat split.
  - repeat split; reflexivity.
Qed.

End MonadLemmas.

(** ** Loops *)

Section LoopLemmas.
Context {sys : Sys}.

Lemma prefix_of_nil {A} (l : list A) : prefix_of [] l.
Proof. now exists l. Qed.

Lemma prefix_of_refl {A} (l : list A) : prefix_of l l.
Proof. exists []. now rewrite app_nil_r. Qed.

Lemma prefix_of_app_r {A} (a b c : list A) : prefix_of a b -> prefix_of a (b ++ c).
Proof. intros [r ->]. exists (r ++ c)%list. now rewrite app_assoc. Qed.

Lemma prefix_of_app_l {A} (c a b : list A) : prefix_of a b -> prefix_of (c ++ a) (c ++ b).
Proof. intros [r ->]. exists r. now rewrite app_assoc. Qed.

Lemma additive_spawned : additive (@spawned (Time sys)).
Proof. split; [reflexivity | apply spawned_app]. Qed.

Lemma additive_opened : additive (@opened (Time sys)).
Proof. split; [reflexivity | apply opened_app]. Qed.

Lemma additive_silent : additive (@silent (Time sys)).
Proof. split; [reflexivity | apply silent_app]. Qed.

(** If every iteration shows an initial segment of [f x], and all of it when
    it returns, the loop shows an initial segment of the concatenation, and
    all of it when it returns. *)
Lemma for_fold_observed {X S Y} (obs : list (event (Time sys)) -> list Y)
    (f : X -> list Y) (body : X -> S -> M sys S) :
  additive obs ->
  (forall x s w,
      prefix_of (obs (trace (body x s w))) (f x) /\
      (forall s', out (body x s w) = Ret s' -> obs (trace (body x s w)) = f x)) ->
  forall xs s w,
    prefix_of (obs (trace (for_fold xs body s w))) (flat_map f xs) /\
    (forall s', out (for_fold xs body s w) = Ret s' ->
                obs (trace (for_fold xs body s w)) = flat_map f xs).
Proof.
  intros [Hnil Happ] Hbody.
  induction xs as [|x xs IH]; intros s w.
  - simpl. rewrite Hnil. split; [apply prefix_of_nil | reflexivity].
  - cbn [for_fold flat_map].
    rewrite trace_bind, out_bind, Happ.
    destruct (Hbody x s w) as [Hp Hr].
    destruct (out (body x s w)) as [s1|c|e] eqn:Eo.
    + rewrite (Hr s1 eq_refl).
      destruct (IH s1 (final (body x s w))) as [IHp IHr].
      split; [now apply prefix_of_app_l|].
      intros s' Hs'. now rewrite (IHr s' Hs').
    + rewrite Hnil, app_nil_r. split; [now apply prefix_of_app_r | discriminate].
    + rewrite Hnil, app_nil_r. split; [now apply prefix_of_app_r | discriminate].
Qed.

Lemma flat_map_filter {A B} (p : A -> bool) (g : A -> B) l :
  flat_map (fun x => if p x then [g x] else []) l = map g (filter p l).
Proof.
  induction l as [|x l IH]; simpl; [reflexivity|].
  destruct (p x); simpl; now rewrite IH.
Qed.

End LoopLemmas.

(** ** The script runner and the comparator, step by step *)

Section Runner.
Context {sys : Sys}.

Lemma bind_ret_r {A} (m : M sys A) w : bind m ret w = m w.
Proof.
  unfold bind, ret. destruct (m w) as [o f t]; cbn [out final trace].
  destruct o; cbn [out final trace]; now rewrite ?app_nil_r.
Qed.

Lemma fetch_query_results_eq query sql_tool db wh (w : World sys) :
  fetch_query_results query sql_tool db wh w = execute_sql query sql_tool db wh w.
Proof. unfold fetch_query_results. apply bind_ret_r. Qed.

Lemma script_body_silent sql_tool db wh query (w : World sys) :
  silent (trace ((if truthy (strip query)
                  then execute_sql query sql_tool db wh ;; ret tt
                  else ret tt) w)) =
  if nonblank query then [Spawned (build_command query sql_tool db wh)] else [].
Proof.
  unfold nonblank. destruct (truthy (strip query)); [|reflexivity].
  rewrite trace_bind, silent_app.
  destruct (execute_sql_run query sql_tool db wh w) as (_ & Hs & _).
  rewrite Hs. destruct (out _); reflexivity.
Qed.

(** A script shows its file and then the commands of its statements, in
    order; all of them when it returns. *)
Lemma execute_sql_scripts_silent sql_tool path db wh (w : World sys) :
  let r := execute_sql_scripts sql_tool path db wh w in
  match fst (open_read sys path w) with
  | inl script =>
      let full := Opened path :: script_events sql_tool db wh script in
      prefix_of (silent (trace r)) full /\
      (out r = Ret tt -> silent (trace r) = full)
  | inr msg =>
      out r = Raise (OtherException msg) /\ silent (trace r) = [Opened path]
  end.
Proof.
  cbv zeta. unfold execute_sql_scripts.
  rewrite trace_bind, out_bind. cbn [print out final trace].
  rewrite trace_bind, out_bind, !read_file_eq.
  destruct (open_read sys path w) as [[script|msg] w1]; cbn [out final trace fst snd].
  - unfold for_each.
    destruct (for_fold_observed (sys:=sys) silent
                (fun q => if nonblank q
                          then [Spawned (build_command q sql_tool db wh)] else [])
                (fun query (_ : unit) =>
                   if truthy (strip query)
                   then execute_sql query sql_tool db wh ;; ret tt
                   else ret tt)
                additive_silent) with (xs := split ";" script) (s := tt) (w := w1)
      as [Hp Hr].
    { intros x s w'. rewrite script_body_silent.
      split; [apply prefix_of_refl | reflexivity]. }
    rewrite flat_map_filter in Hp, Hr.
    unfold script_events, script_commands, statements. rewrite map_map.
    split.
    + cbn [app silent]. now apply (prefix_of_app_l [Opened path]).
    + intros Ho. cbn [app silent]. now rewrite (Hr tt Ho).
  - split; reflexivity.
Qed.

(** One iteration of the comparator on a statement: the clock is read, the
    statement goes to bendsql, then to snowsql in the world bendsql left,
    the clock is read again, and one record is appended. *)
Lemma check_query_spec db wh query failed passed (w : World sys) :
  nonblank query = true ->
  let id := query_identifier query in
  let t0 := fst (time_time sys w) in
  let rb := execute_sql query "bendsql" db None (snd (time_time sys w)) in
  let rs := execute_sql query "snowsql" db (Some wh) (final rb) in
  let t1 := fst (time_time sys (final rs)) in
  let cb := Spawned (build_command query "bendsql" db None) in
  let cs := Spawned (build_command query "snowsql" db (Some wh)) in
  let r := check_query db wh query (failed, passed) w in
  match out rb with
  | Ret bend =>
      match out rs with
      | Ret snow =>
          out r = Ret (if bend =? snow
                       then (failed, (passed ++ [(id, time_sub sys t1 t0)])%list)
                       else ((failed ++ [(id, bend, snow)])%list, passed)) /\
          final r = snd (time_time sys (final rs)) /\
          silent (trace r) = [Clock t0; cb; cs; Clock t1]
      | Exit c => out r = Exit c /\ silent (trace r) = [Clock t0; cb; cs]
      | Raise e => out r = Raise e /\ silent (trace r) = [Clock t0; cb; cs]
      end
  | Exit c => out r = Exit c /\ silent (trace r) = [Clock t0; cb]
  | Raise e => out r = Raise e /\ silent (trace r) = [Clock t0; cb]
  end.
Proof.
  intros Hnb. cbv zeta. unfold check_query. unfold nonblank in Hnb. rewrite Hnb.
  rewrite out_bind, final_bind, trace_bind. cbn [print out final trace].
  rewrite out_bind, final_bind, trace_bind, !now_eq. cbn [out final trace].
  rewrite out_bind, final_bind, trace_bind, !fetch_query_results_eq.
  destruct (execute_sql_run query "bendsql" db None (snd (time_time sys w)))
    as (_ & Hsb & _).
  set (rb := execute_sql query "bendsql" db None (snd (time_time sys w))) in *.
  destruct (out rb) as [bend|c|e].
  2,3: split; [reflexivity|]; cbn [app silent]; rewrite silent_app, Hsb; reflexivity.
  rewrite out_bind, final_bind, trace_bind, !fetch_query_results_eq.
  destruct (execute_sql_run query "snowsql" db (Some wh) (final rb)) as (_ & Hss & _).
  set (rs := execute_sql query "snowsql" db (Some wh) (final rb)) in *.
  destruct (out rs) as [snow|c|e].
  2,3: split; [reflexivity|]; cbn [app silent];
       rewrite !silent_app, Hsb, Hss; reflexivity.
  rewrite out_bind, final_bind, trace_bind, !now_eq. cbn [out final trace].
  destruct (bend =? snow); cbn [negb];
    repeat split; cbn [app silent]; rewrite ?silent_app, ?Hsb, ?Hss; reflexivity.
Qed.

Lemma check_query_blank db wh query tests (w : World sys) :
  nonblank query = false ->
  check_query db wh query tests w = mkResult (Ret tests) w [].
Proof.
  intros Hnb. unfold check_query. destruct tests as [failed passed].
  unfold nonblank in Hnb. now rewrite Hnb.
Qed.

End Runner.

(** ** The comparator *)

Section Comparator.
Context {sys : Sys}.

(** The records the loop leaves come from one comparison per non-blank
    statement, in order. *)
Lemma check_loop_records db wh queries :
  forall failed0 passed0 (w : World sys) failed passed,
    out (for_fold queries (check_query db wh) (failed0, passed0) w) =
      Ret (failed, passed) ->
    exists cs : list (comparison (Time sys)),
      map cmp_id cs = map query_identifier (filter nonblank queries) /\
      failed = (failed0 ++ failed_of cs)%list /\
      passed = (passed0 ++ passed_of cs)%list.
Proof.
  induction queries as [|q qs IH]; intros failed0 passed0 w failed passed.
  - cbn. intros [= <- <-]. exists []. cbn. now rewrite !app_nil_r.
  - cbn [for_fold filter]. rewrite out_bind.
    destruct (nonblank q) eqn:Hnb.
    + pose proof (check_query_spec db wh q failed0 passed0 w Hnb) as Hq.
      cbv zeta in Hq.
      destruct (out (execute_sql q "bendsql" db None _)) as [bend|c|e];
        [|destruct Hq as [-> _]; discriminate..].
      destruct (out (execute_sql q "snowsql" db (Some wh) _)) as [snow|c|e];
        [|destruct Hq as [-> _]; discriminate..].
      destruct Hq as (-> & _ & _).
      set (el := time_sub sys _ _).
      destruct (bend =? snow) eqn:Heq; intros H;
        apply IH in H as (cs & Hids & -> & ->);
        exists (mkComparison (query_identifier q) bend snow el :: cs);
        cbn [map]; rewrite Hids;
        unfold failed_of, passed_of, is_match; cbn [filter bend_text snow_text];
        rewrite Heq; cbn [negb map cmp_id bend_text snow_text cmp_elapsed];
        rewrite <- ?app_assoc; repeat split; reflexivity.
    + rewrite check_query_blank by assumption. cbn [out final]. apply IH.
Qed.

End Comparator.

Section ComparatorTotal.
Context {sys : Sys}.

Lemma execute_sql_quiet query sql_tool db wh (w : World sys) :
  quiet_engines sys -> exists txt, out (execute_sql query sql_tool db wh w) = Ret txt.
Proof.
  intros Hq.
  destruct (execute_sql_run query sql_tool db wh w) as (_ & _ & Ho).
  destruct (Hq (build_command query sql_tool db wh) w) as (cp & w' & Hrun & Herr).
  rewrite Hrun in Ho. cbn [fst] in Ho. rewrite Ho. unfold classify.
  rewrite Herr. destruct (contains "DROP DATABASE" query); eauto.
Qed.

Lemma check_loop_returns db wh queries :
  quiet_engines sys ->
  forall tests (w : World sys),
    exists tests', out (for_fold queries (check_query db wh) tests w) = Ret tests'.
Proof.
  intros Hq. induction queries as [|q qs IH]; intros [failed passed] w.
  - cbn. eauto.
  - cbn [for_fold]. rewrite out_bind.
    destruct (nonblank q) eqn:Hnb.
    + pose proof (check_query_spec db wh q failed passed w Hnb) as Hs.
      cbv zeta in Hs.
      destruct (execute_sql_quiet q "bendsql" db None (snd (time_time sys w)) Hq)
        as [bend Hb].
      rewrite Hb in Hs.
      destruct (execute_sql_quiet q "snowsql" db (Some wh)
                  (final (execute_sql q "bendsql" db None (snd (time_time sys w)))) Hq)
        as [snow Hsn].
      rewrite Hsn in Hs. destruct Hs as (-> & _ & _). apply IH.
    + rewrite check_query_blank by assumption. cbn [out final]. apply IH.
Qed.

End ComparatorTotal.

(** ** The engine adapter in full *)

Section Adapter.
Context {sys : Sys}.

Lemma inspect_result_no_raise query cp (w : World sys) e :
  out (inspect_result query cp w) <> Raise e.
Proof.
  rewrite inspect_result_out. unfold classify.
  destruct (contains _ query); [discriminate|].
  destruct (error_pattern _ _); discriminate.
Qed.

(** When the process completes, [execute_sql] is the announcement, the
    process, and the inspection of what it captured. *)
Lemma execute_sql_completed query sql_tool db wh (w : World sys) cp w' :
  subprocess_run sys (build_command query sql_tool db wh) w = (inl cp, w') ->
  execute_sql query sql_tool db wh w =
  mkResult (out (inspect_result query cp w'))
           (final (inspect_result query cp w'))
           (announce query sql_tool db wh
            :: Spawned (build_command query sql_tool db wh)
            :: trace (inspect_result query cp w')).
Proof.
  intros Hrun. unfold execute_sql, announce. cbv zeta.
  unfold try_except, bind, run_process, print. cbn [out final trace].
  rewrite Hrun. cbn [out final trace].
  pose proof (inspect_result_no_raise query cp w') as Hnr.
  destruct (inspect_result query cp w') as [o f t]. cbn [out final trace] in *.
  destruct o as [a|c|e]; cbn [out final trace]; try reflexivity.
  now destruct (Hnr e).
Qed.

(** When the process cannot be started, the exception reaches the caller. *)
Lemma execute_sql_not_started query sql_tool db wh (w : World sys) msg w' :
  subprocess_run sys (build_command query sql_tool db wh) w = (inr msg, w') ->
  execute_sql query sql_tool db wh w =
  mkResult (Raise (OtherException msg)) w'
           [announce query sql_tool db wh;
            Spawned (build_command query sql_tool db wh)].
Proof.
  intros Hrun. unfold execute_sql, announce. cbv zeta.
  unfold try_except, bind, run_process, print. cbn [out final trace].
  rewrite Hrun. reflexivity.
Qed.

(** [sys.exit] passes through every [try] of the script and skips the rest
    of the program. *)
Lemma exit_through_try {A} (m : M sys A) catches h (w : World sys) c :
  out (m w) = Exit c -> try_except m catches h w = m w.
Proof. intros H. unfold try_except. now rewrite H. Qed.

Lemma exit_skips_rest {A B} (m : M sys A) (k : A -> M sys B) (w : World sys) c :
  out (m w) = Exit c ->
  bind m k w = mkResult (Exit c) (final (m w)) (trace (m w)).
Proof. intros H. unfold bind. now rewrite H. Qed.

End Adapter.

(** ** Commands issued by the loops *)

Section Commands.
Context {sys : Sys}.

Lemma flat_map_if_filter {A B} (p : A -> bool) (g : A -> list B) l :
  flat_map (fun x => if p x then g x else []) l = flat_map g (filter p l).
Proof.
  induction l as [|x l IH]; simpl; [reflexivity|].
  destruct (p x); simpl; now rewrite IH.
Qed.

Lemma execute_sql_scripts_spawned sql_tool path db wh (w : World sys) script :
  fst (open_read sys path w) = inl script ->
  let r := execute_sql_scripts sql_tool path db wh w in
  prefix_of (spawned (trace r)) (script_commands sql_tool db wh script) /\
  (out r = Ret tt -> spawned (trace r) = script_commands sql_tool db wh script).
Proof.
  intros Hread. cbv zeta.
  pose proof (execute_sql_scripts_silent sql_tool path db wh w) as H.
  cbv zeta in H. rewrite Hread in H. destruct H as [Hp Hr].
  assert (Hs : spawned (Opened path :: script_events (T := Time sys) sql_tool db wh script)
               = script_commands sql_tool db wh script).
  { cbn [spawned]. unfold script_events.
    induction (script_commands sql_tool db wh script) as [|c cs IH];
      cbn; [reflexivity | now rewrite IH]. }
  split.
  - rewrite <- spawned_silent, <- Hs. destruct Hp as [rest ->].
    rewrite spawned_app. now exists (spawned rest).
  - intros Ho. now rewrite <- spawned_silent, (Hr Ho).
Qed.

Lemma check_query_spawned db wh query tests (w : World sys) :
  let r := check_query db wh query tests w in
  let full := if nonblank query then check_pair db wh query else [] in
  prefix_of (spawned (trace r)) full /\
  (forall tests', out r = Ret tests' -> spawned (trace r) = full).
Proof.
  cbv zeta. destruct tests as [failed passed].
  destruct (nonblank query) eqn:Hnb.
  - pose proof (check_query_spec db wh query failed passed w Hnb) as H.
    cbv zeta in H. rewrite <- spawned_silent. unfold check_pair.
    destruct (out (execute_sql query "bendsql" db None _)) as [bend|c|e].
    + destruct (out (execute_sql query "snowsql" db (Some wh) _)) as [snow|c|e].
      * destruct H as (_ & _ & ->). cbn [spawned].
        split; [apply prefix_of_refl | reflexivity].
      * destruct H as (-> & ->). cbn [spawned].
        split; [apply prefix_of_refl | discriminate].
      * destruct H as (-> & ->). cbn [spawned].
        split; [apply prefix_of_refl | discriminate].
    + destruct H as (-> & ->). cbn [spawned].
      split; [now exists [build_command query "snowsql" db (Some wh)] | discriminate].
    + destruct H as (-> & ->). cbn [spawned].
      split; [now exists [build_command query "snowsql" db (Some wh)] | discriminate].
  - rewrite check_query_blank by assumption. cbn.
    split; [apply prefix_of_nil | reflexivity].
Qed.

Lemma check_loop_spawned db wh (w : World sys) script :
  let r := check_loop db wh (split ";" script) w in
  prefix_of (spawned (trace r)) (check_commands db wh script) /\
  (forall tests, out r = Ret tests -> spawned (trace r) = check_commands db wh script).
Proof.
  cbv zeta. unfold check_loop, check_commands, statements.
  rewrite <- flat_map_if_filter.
  apply (for_fold_observed (sys := sys) spawned
           (fun q => if nonblank q then check_pair db wh q else [])
           (check_query db wh) additive_spawned).
  intros x s w'. apply check_query_spawned.
Qed.

End Commands.

(** ** The identifier pattern *)

Section Pattern.

Lemma match_star_nil p cap rest :
  match_here (Item p Star cap :: rest) "" = match_here rest "".
Proof. reflexivity. Qed.

Lemma match_star_cons p cap rest c r :
  match_here (Item p Star cap :: rest) (String c r) =
  if p c then
    match match_here (Item p Star cap :: rest) r with
    | Some g => Some (keep (Item p Star cap) c g)
    | None => match_here rest (String c r)
    end
  else match_here rest (String c r).
Proof. reflexivity. Qed.

Lemma match_once_cons p cap rest c r :
  match_here (Item p Once cap :: rest) (String c r) =
  if p c then option_map (keep (Item p Once cap) c) (match_here rest r) else None.
Proof. reflexivity. Qed.

(** A greedy star whose class cannot start the rest of the pattern takes
    the whole run of its class: backtracking never finds another match. *)
Lemma match_star_span p cap rest :
  (forall c r, p c = true -> match_here rest (String c r) = None) ->
  forall tok s,
    all_chars p tok = true ->
    stops p s ->
    match_here (Item p Star cap :: rest) (tok ++ s) =
    option_map (grouped cap tok) (match_here rest s).
Proof.
  intros Hrest. induction tok as [|a t IH]; intros s Htok Hs.
  - cbn [append]. unfold grouped.
    assert (Hid : match_here (Item p Star cap :: rest) s = match_here rest s).
    { destruct s as [|c r]; [reflexivity|].
      rewrite match_star_cons. cbn in Hs. now rewrite Hs. }
    rewrite Hid. destruct (match_here rest s), cap; reflexivity.
  - cbn [all_chars] in Htok. apply andb_prop in Htok as [Ha Ht].
    cbn [append]. rewrite match_star_cons, Ha, (IH s Ht Hs).
    destruct (match_here rest s) as [g|]; cbn [option_map].
    + unfold keep, grouped. cbn [captured]. now destruct cap.
    + now apply Hrest.
Qed.

(** Whatever a star matches, it has taken some run of its class and the
    rest of the pattern has matched what follows. *)
Lemma match_star_sound p cap rest s :
  forall g,
    match_here (Item p Star cap :: rest) s = Some g ->
    exists tok s' g',
      s = tok ++ s' /\ all_chars p tok = true /\
      match_here rest s' = Some g' /\ g = grouped cap tok g'.
Proof.
  induction s as [|c r IH]; intros g.
  - rewrite match_star_nil. intros H. exists "", "", g.
    repeat split; try assumption. unfold grouped. now destruct cap.
  - rewrite match_star_cons.
    assert (Hskip : match_here rest (String c r) = Some g ->
                    exists tok s' g',
                      String c r = tok ++ s' /\ all_chars p tok = true /\
                      match_here rest s' = Some g' /\ g = grouped cap tok g').
    { intros H. exists "", (String c r), g.
      repeat split; try assumption. unfold grouped. now destruct cap. }
    destruct (p c) eqn:Hc; [|exact Hskip].
    destruct (match_here (Item p Star cap :: rest) r) as [g1|] eqn:E; [|exact Hskip].
    intros [= <-].
    destruct (IH g1 eq_refl) as (tok & s' & g' & -> & Htok & Hm & ->).
    exists (String c tok), s', g'.
    repeat split; try assumption.
    + cbn. now rewrite Hc, Htok.
    + unfold keep, grouped. cbn [captured]. now destruct cap.
Qed.

End Pattern.

Section IdentifierPattern.

Ltac each_char c :=
  destruct c as [b0 b1 b2 b3 b4 b5 b6 b7];
  destruct b0, b1, b2, b3, b4, b5, b6, b7.

Lemma word_not_space c : word_or_dash c = true -> isspace c = false.
Proof. each_char c; vm_compute; intros H; solve [reflexivity | discriminate H]. Qed.

Lemma word_not_colon c : word_or_dash c = true -> Ascii.eqb ":" c = false.
Proof. each_char c; vm_compute; intros H; solve [reflexivity | discriminate H]. Qed.

Lemma space_not_word c : isspace c = true -> word_or_dash c = false.
Proof.
  intros Hs. destruct (word_or_dash c) eqn:E; [|reflexivity].
  apply word_not_space in E. congruence.
Qed.

Lemma identifier_re_eq :
  identifier_re = lit "-" :: lit "-" :: Item isspace Star false :: token_re.
Proof. reflexivity. Qed.

Lemma match_token_tail t post :
  all_chars word_or_dash t = true ->
  match_here token_tail_re (t ++ String ":" post) = Some t.
Proof.
  intros Ht. unfold token_tail_re.
  rewrite match_star_span; try assumption.
  - cbn. unfold grouped. now rewrite append_empty_r.
  - intros c r Hc. unfold lit. rewrite match_once_cons.
    now rewrite (word_not_colon c Hc).
  - reflexivity.
Qed.

Lemma match_token tok post :
  tok <> "" ->
  all_chars word_or_dash tok = true ->
  match_here token_re (tok ++ String ":" post) = Some tok.
Proof.
  intros Hne Htok. destruct tok as [|a t]; [congruence|].
  cbn [all_chars] in Htok. apply andb_prop in Htok as [Ha Ht].
  unfold token_re. cbn [append]. rewrite match_once_cons, Ha.
  change (Item word_or_dash Star true :: [lit ":"]) with token_tail_re.
  now rewrite (match_token_tail t post Ht).
Qed.

(** A text that starts with a tag matches, and the group is the token. *)
Lemma match_identifier_complete tok s :
  tagged tok s -> match_here identifier_re s = Some tok.
Proof.
  intros (ws & post & -> & Hws & Hne & Htok).
  rewrite identifier_re_eq. cbn [append]. unfold lit at 1 2.
  rewrite !match_once_cons. rewrite !Ascii.eqb_refl.
  unfold keep at 1 2. cbn [captured].
  rewrite match_star_span; try assumption.
  - now rewrite (match_token tok post Hne Htok).
  - intros c r Hc. unfold token_re. rewrite match_once_cons.
    now rewrite (space_not_word c Hc).
  - destruct tok as [|a t]; [congruence|]. cbn.
    cbn [all_chars] in Htok. apply andb_prop in Htok as [Ha _].
    now apply word_not_space.
Qed.

(** A match of the pattern at the start of a text is a tag, and the group
    is its token. *)
Lemma match_identifier_sound s g :
  match_here identifier_re s = Some g -> tagged g s.
Proof.
  rewrite identifier_re_eq. unfold lit.
  destruct s as [|c1 [|c2 s2]]; try discriminate.
  { rewrite match_once_cons. destruct (Ascii.eqb "-" c1); discriminate. }
  rewrite !match_once_cons.
  destruct (Ascii.eqb_spec "-" c1) as [<-|]; [|discriminate].
  destruct (Ascii.eqb_spec "-" c2) as [<-|]; [|discriminate].
  unfold keep at 1 2. cbn [captured].
  destruct (match_here _ s2) as [g0|] eqn:E; [|discriminate].
  cbn [option_map]. intros [= <-].
  apply match_star_sound in E as (ws & s3 & g1 & -> & Hws & Htok & ->).
  unfold grouped. unfold token_re in Htok.
  destruct s3 as [|a s4]; [discriminate|].
  rewrite match_once_cons in Htok.
  destruct (word_or_dash a) eqn:Ha; [|discriminate].
  destruct (match_here _ s4) as [g2|] eqn:E2; [|discriminate].
  cbn [option_map] in Htok. injection Htok as <-.
  apply match_star_sound in E2 as (t & s5 & g3 & -> & Ht & Hcolon & ->).
  unfold lit in Hcolon. destruct s5 as [|c post]; [discriminate|].
  rewrite match_once_cons in Hcolon.
  destruct (Ascii.eqb_spec ":" c) as [<-|]; [|discriminate].
  cbn in Hcolon. injection Hcolon as <-.
  exists ws, post. unfold keep, grouped. cbn [captured].
  rewrite append_empty_r.
  repeat split; try assumption; try discriminate.
  cbn. now rewrite Ha, Ht.
Qed.

Lemma match_identifier_iff s tok :
  match_here identifier_re s = Some tok <-> tagged tok s.
Proof. split; [apply match_identifier_sound | apply match_identifier_complete]. Qed.

Lemma tagged_token_has_no_space tok s :
  tagged tok s -> all_chars (fun c => negb (isspace c)) tok = true.
Proof.
  intros (_ & _ & _ & _ & _ & Htok).
  induction tok as [|a t IH]; [reflexivity|].
  cbn in *. apply andb_prop in Htok as [Ha Ht].
  now rewrite (word_not_space a Ha), (IH Ht).
Qed.

Lemma strip_no_space s :
  all_chars (fun c => negb (isspace c)) s = true -> strip s = s.
Proof.
  intros H. unfold strip.
  assert (Hl : lstrip s = s).
  { destruct s as [|c r]; [reflexivity|]. cbn in *.
    apply andb_prop in H as [Hc _]. apply negb_true_iff in Hc. now rewrite Hc. }
  rewrite Hl. induction s as [|c r IH]; [reflexivity|].
  cbn in H. apply andb_prop in H as [Hc Hr]. apply negb_true_iff in Hc.
  assert (Hlr : lstrip r = r).
  { destruct r as [|c' r']; [reflexivity|]. cbn in *.
    apply andb_prop in Hr as [Hc' _]. apply negb_true_iff in Hc'. now rewrite Hc'. }
  cbn [rstrip]. rewrite (IH Hr Hlr).
  destruct r; [now rewrite Hc | reflexivity].
Qed.

(** [re.search] returns the match at the first position that has one. *)
Lemma search_first p pre :
  forall rest g,
    match_here p rest = Some g ->
    (forall p1 p2, pre = p1 ++ p2 -> p2 <> "" -> match_here p (p2 ++ rest) = None) ->
    search p (pre ++ rest) = Some g.
Proof.
  induction pre as [|c pre IH]; intros rest g Hm Hnone.
  - cbn [append]. destruct rest; cbn [search]; now rewrite Hm.
  - cbn [append search].
    assert (H0 : match_here p (String c pre ++ rest) = None)
      by (apply (Hnone "" (String c pre) eq_refl); discriminate).
    cbn [append] in H0. rewrite H0.
    apply IH; [assumption|].
    intros p1 p2 -> Hne. now apply (Hnone (String c p1) p2).
Qed.

Lemma search_some p s :
  forall g,
    search p s = Some g ->
    exists pre rest, s = pre ++ rest /\ match_here p rest = Some g.
Proof.
  induction s as [|c r IH]; intros g.
  - cbn [search]. destruct (match_here p "") eqn:E; [|discriminate].
    intros [= <-]. now exists "", "".
  - cbn [search]. destruct (match_here p (String c r)) eqn:E.
    + intros [= <-]. now exists "", (String c r).
    + intros H. apply IH in H as (pre & rest & -> & Hm).
      now exists (String c pre), rest.
Qed.

Lemma search_none p s :
  search p s = None ->
  forall pre rest, s = pre ++ rest -> match_here p rest = None.
Proof.
  induction s as [|c r IH]; cbn [search].
  - destruct (match_here p "") eqn:E; [discriminate|].
    intros _ pre rest H. destruct pre; [|discriminate]. cbn in H. now subst.
  - destruct (match_here p (String c r)) eqn:E; [discriminate|].
    intros H pre rest Hs. destruct pre as [|c' pre'].
    + cbn in Hs. now subst.
    + cbn in Hs. injection Hs as _ ->. now apply (IH H pre' rest).
Qed.

Lemma none_before_untagged pre rest :
  none_before identifier_re pre rest = true -> untagged_before pre rest.
Proof.
  unfold untagged_before.
  induction pre as [|c pre IH]; intros H p1 p2 tok Hsplit Hne Htag.
  - destruct p1; [|discriminate]. cbn in Hsplit. congruence.
  - cbn [none_before] in H.
    destruct (match_here identifier_re (String c pre ++ rest)) eqn:E; [discriminate|].
    destruct p1 as [|c1 p1'].
    + cbn in Hsplit. subst p2.
      apply match_identifier_complete in Htag. congruence.
    + cbn in Hsplit. injection Hsplit as _ ->.
      now apply (IH H p1' p2 tok eq_refl Hne).
Qed.

Lemma untagged_before_none pre rest :
  untagged_before pre rest ->
  forall p1 p2, pre = p1 ++ p2 -> p2 <> "" ->
                match_here identifier_re (p2 ++ rest) = None.
Proof.
  intros H p1 p2 Hs Hne.
  destruct (match_here identifier_re (p2 ++ rest)) as [g|] eqn:E; [|reflexivity].
  apply match_identifier_sound in E. now destruct (H p1 p2 g Hs Hne).
Qed.

Lemma query_identifier_tagged pre rest tok :
  tagged tok rest -> untagged_before pre rest ->
  query_identifier (pre ++ rest) = tok.
Proof.
  intros Htag Hbefore. unfold query_identifier.
  rewrite (search_first identifier_re pre rest tok).
  - apply strip_no_space. now apply (tagged_token_has_no_space tok rest).
  - now apply match_identifier_complete.
  - now apply untagged_before_none.
Qed.

Lemma query_identifier_unknown query :
  (forall pre rest tok, query = pre ++ rest -> ~ tagged tok rest) <->
  query_identifier query = "Unknown Query".
Proof.
  unfold query_identifier. split.
  - intros Hno. destruct (search identifier_re query) as [g|] eqn:E; [|reflexivity].
    apply search_some in E as (pre & rest & -> & Hm).
    apply match_identifier_sound in Hm. now destruct (Hno pre rest g eq_refl).
  - destruct (search identifier_re query) as [g|] eqn:E.
    + intros Hg. apply search_some in E as (pre & rest & -> & Hm).
      apply match_identifier_sound in Hm.
      pose proof (tagged_token_has_no_space g rest Hm) as Hns.
      rewrite (strip_no_space g Hns) in Hg. subst g. discriminate Hns.
    + intros _ pre rest tok -> Htag.
      apply match_identifier_complete in Htag.
      pose proof (search_none _ _ E pre rest eq_refl). congruence.
Qed.

End IdentifierPattern.

(** ** The provisioner *)

Section Provisioner.
Context {sys : Sys}.

Lemma drop_query_is_drop db :
  contains "DROP DATABASE" ("DROP DATABASE IF EXISTS " ++ db ++ ";") = true.
Proof. reflexivity. Qed.

(** The guarded drop of [setup_database] for bendsql: it always returns, in
    the world the process left, having run the one command; an exception is
    reported as a warning. *)
Lemma guarded_drop db (w : World sys) :
  let drop_query := "DROP DATABASE IF EXISTS " ++ db ++ ";" in
  let rd := execute_sql drop_query "bendsql" "default" None w in
  let r := try_except
             (execute_sql drop_query "bendsql" "default" None ;; ret tt)
             (fun _ => true)
             (fun e => print ("Warning: Could not drop database (it may not exist): "
                              ++ exn_str e)) w in
  out r = Ret tt /\
  final r = final rd /\
  silent (trace r) = [Spawned (build_command drop_query "bendsql" "default" None)] /\
  (forall c, out rd <> Exit c) /\
  (forall e, out rd = Raise e ->
             trace r = (trace rd ++
                        [Printed ("Warning: Could not drop database (it may not exist): "
                                  ++ exn_str e)])%list).
Proof.
  cbv zeta.
  set (drop_query := "DROP DATABASE IF EXISTS " ++ db ++ ";").
  destruct (execute_sql_run drop_query "bendsql" "default" None w) as (_ & Hs & Ho).
  assert (Hne : forall c, out (execute_sql drop_query "bendsql" "default" None w) <> Exit c).
  { intros c. rewrite Ho. destruct (fst _); [|discriminate].
    unfold classify, drop_query. rewrite drop_query_is_drop. discriminate. }
  unfold try_except, bind, ret, print.
  destruct (execute_sql drop_query "bendsql" "default" None w) as [o f t].
  cbn [out final trace] in *.
  destruct o as [a|c|e]; cbn [out final trace].
  - rewrite app_nil_r. repeat split; try assumption; discriminate.
  - now destruct (Hne c).
  - rewrite silent_app, Hs. repeat split; try assumption.
    intros e' [= <-]. reflexivity.
Qed.

(** Provisioning bendsql: the drop, then the create, both on the database
    [default]; the result is the one of the create. *)
Lemma setup_database_bendsql db (w : World sys) :
  let drop_query := "DROP DATABASE IF EXISTS " ++ db ++ ";" in
  let create_query := "CREATE DATABASE " ++ db ++ ";" in
  let rd := execute_sql drop_query "bendsql" "default" None w in
  let rc := execute_sql create_query "bendsql" "default" None (final rd) in
  let r := setup_database db "bendsql" w in
  silent (trace r) =
    [Spawned ["bendsql"; "--query=" ++ drop_query; "-D"; "default"];
     Spawned ["bendsql"; "--query=" ++ create_query; "-D"; "default"]] /\
  out r = match out rc with
          | Ret _ => Ret tt
          | Exit c => Exit c
          | Raise e => Raise e
          end.
Proof.
  cbv zeta. unfold setup_database.
  change ("bendsql" =? "bendsql") with true. cbv iota.
  destruct (guarded_drop db w) as (Ho & Hf & Hs & _ & _). cbv zeta in Ho, Hf, Hs.
  set (guard := try_except _ _ _) in *.
  set (rd := execute_sql _ "bendsql" "default" None w) in *.
  destruct (execute_sql_run ("CREATE DATABASE " ++ db ++ ";") "bendsql" "default"
              None (final rd)) as (_ & Hsc & _).
  rewrite !trace_bind, !out_bind, !final_bind, !silent_app, Ho, Hs, Hf.
  rewrite ?trace_bind, ?out_bind, ?final_bind, ?silent_app, ?Hsc.
  destruct (out (execute_sql ("CREATE DATABASE " ++ db ++ ";") "bendsql" "default"
                   None (final rd))); split; reflexivity.
Qed.

End Provisioner.

(** ** One engine's pipeline *)

Section Pipeline.
Context {sys : Sys}.

Lemma uses_only_bind {A B} tool (m : M sys A) (k : A -> M sys B) (w : World sys) :
  uses_only tool (m w) ->
  (forall a, uses_only tool (k a (final (m w)))) ->
  uses_only tool (bind m k w).
Proof.
  unfold uses_only. intros Hm Hk. rewrite trace_bind, spawned_app.
  apply Forall_app. split; [assumption|].
  destruct (out (m w)); [apply Hk | constructor | constructor].
Qed.

Lemma uses_only_print {A} tool text (k : M sys A) (w : World sys) :
  uses_only tool (k w) -> uses_only tool (bind (print text) (fun _ => k) w).
Proof. intros H. apply uses_only_bind; [constructor | intros _; exact H]. Qed.

Lemma uses_only_execute_sql query sql_tool db wh (w : World sys) :
  uses_only sql_tool (execute_sql query sql_tool db wh w).
Proof.
  unfold uses_only.
  destruct (execute_sql_run query sql_tool db wh w) as (_ & Hs & _).
  rewrite <- spawned_silent, Hs. cbn. constructor; [reflexivity | constructor].
Qed.

Lemma opened_execute_sql query sql_tool db wh (w : World sys) :
  opened (trace (execute_sql query sql_tool db wh w)) = [].
Proof.
  destruct (execute_sql_run query sql_tool db wh w) as (_ & Hs & _).
  now rewrite <- opened_silent, Hs.
Qed.

Lemma uses_only_for_fold {X S} tool (body : X -> S -> M sys S) xs :
  (forall x s w, uses_only tool (body x s w)) ->
  forall s (w : World sys), uses_only tool (for_fold xs body s w).
Proof.
  intros Hbody. induction xs as [|x xs IH]; intros s w.
  - constructor.
  - cbn [for_fold]. apply uses_only_bind; [apply Hbody | intros a; apply IH].
Qed.

Lemma opened_for_fold {X S} (body : X -> S -> M sys S) xs :
  (forall x s w, opened (trace (body x s w)) = []) ->
  forall s (w : World sys), opened (trace (for_fold xs body s w)) = [].
Proof.
  intros Hbody. induction xs as [|x xs IH]; intros s w.
  - reflexivity.
  - cbn [for_fold]. rewrite trace_bind, opened_app, Hbody.
    destruct (out (body x s w)); [apply IH | reflexivity | reflexivity].
Qed.

Lemma script_body_uses_only sql_tool db wh query (w : World sys) :
  uses_only sql_tool ((if truthy (strip query)
                       then execute_sql query sql_tool db wh ;; ret tt
                       else ret tt) w).
Proof.
  destruct (truthy (strip query)); [|constructor].
  apply uses_only_bind; [apply uses_only_execute_sql | intros _; constructor].
Qed.

Lemma script_body_opened sql_tool db wh query (w : World sys) :
  opened (trace ((if truthy (strip query)
                  then execute_sql query sql_tool db wh ;; ret tt
                  else ret tt) w)) = [].
Proof.
  destruct (truthy (strip query)); [|reflexivity].
  rewrite trace_bind, opened_app, opened_execute_sql.
  now destruct (out _).
Qed.

Lemma uses_only_execute_sql_scripts sql_tool path db wh (w : World sys) :
  uses_only sql_tool (execute_sql_scripts sql_tool path db wh w).
Proof.
  unfold execute_sql_scripts. apply uses_only_print.
  apply uses_only_bind.
  - rewrite read_file_eq. constructor.
  - intros script. unfold for_each. apply uses_only_for_fold.
    intros x s w'. apply script_body_uses_only.
Qed.

Lemma opened_execute_sql_scripts sql_tool path db wh (w : World sys) :
  opened (trace (execute_sql_scripts sql_tool path db wh w)) = [path].
Proof.
  unfold execute_sql_scripts.
  rewrite trace_bind. cbn [print out final trace app opened].
  rewrite trace_bind, opened_app, read_file_eq. cbn [out final trace opened].
  destruct (fst (open_read sys path w)) as [script|msg]; [|reflexivity].
  unfold for_each. rewrite opened_for_fold; [reflexivity|].
  intros x u w'. apply script_body_opened.
Qed.

Lemma uses_only_setup_database db sql_tool (w : World sys) :
  uses_only sql_tool (setup_database db sql_tool w).
Proof.
  unfold setup_database. apply uses_only_bind; [|intros _; constructor].
  destruct (sql_tool =? "bendsql") eqn:E.
  - apply uses_only_bind.
    + unfold uses_only, try_except.
      pose proof (uses_only_bind sql_tool
                    (execute_sql ("DROP DATABASE IF EXISTS " ++ db ++ ";")
                       sql_tool "default" None)
                    (fun _ => ret tt) w
                    (uses_only_execute_sql _ _ _ _ _)
                    (fun _ => Forall_nil _)) as H.
      unfold uses_only in H.
      destruct (out _); [exact H | exact H |].
      cbn [trace]. rewrite spawned_app, app_nil_r. exact H.
    + intros _. apply uses_only_bind; [apply uses_only_execute_sql|].
      intros _. constructor.
  - apply uses_only_bind; [apply uses_only_execute_sql|]. intros _.
    apply uses_only_bind; [apply uses_only_execute_sql|]. intros _. constructor.
Qed.

Lemma opened_setup_database db sql_tool (w : World sys) :
  opened (trace (setup_database db sql_tool w)) = [].
Proof.
  unfold setup_database. rewrite trace_bind, opened_app.
  assert (Hprint : forall (o : outcome unit) w',
             opened (match o with
                     | Ret _ => trace (print (sys := sys)
                                         ("Database '" ++ db ++ "' has been set up.") w')
                     | _ => []
                     end) = []) by (intros [ | | ] w'; reflexivity).
  rewrite Hprint, app_nil_r.
  assert (Hexec : forall q d (w' : World sys),
             opened (trace ((execute_sql q sql_tool d None ;; ret tt) w')) = []).
  { intros q d w'. rewrite trace_bind, opened_app, opened_execute_sql.
    now destruct (out _). }
  destruct (sql_tool =? "bendsql").
  - rewrite trace_bind, opened_app.
    assert (Hg : forall w' : World sys, opened (trace (try_except
                    (execute_sql ("DROP DATABASE IF EXISTS " ++ db ++ ";")
                       sql_tool "default" None ;; ret tt)
                    (fun _ => true)
                    (fun e => print
                       ("Warning: Could not drop database (it may not exist): "
                        ++ exn_str e)) w')) = []).
    { intros w'. unfold try_except. specialize (Hexec
        ("DROP DATABASE IF EXISTS " ++ db ++ ";") "default" w').
      destruct (out _); try exact Hexec.
      cbn [trace]. now rewrite opened_app, Hexec. }
    rewrite Hg. destruct (out _); [apply Hexec | reflexivity | reflexivity].
  - rewrite trace_bind, opened_app, opened_execute_sql.
    destruct (out _); [apply Hexec | reflexivity | reflexivity].
Qed.

End Pipeline.

Section PipelineOrder.
Context {sys : Sys}.

Lemma for_fold_unobserved {X S Y} (obs : list (event (Time sys)) -> list Y)
    (body : X -> S -> M sys S) xs :
  additive obs ->
  (forall x s w, obs (trace (body x s w)) = []) ->
  forall s (w : World sys), obs (trace (for_fold xs body s w)) = [].
Proof.
  intros [Hnil Happ] Hbody. induction xs as [|x xs IH]; intros s w.
  - exact Hnil.
  - cbn [for_fold]. rewrite trace_bind, Happ, Hbody.
    destruct (out (body x s w)); [apply IH | exact Hnil | exact Hnil].
Qed.

Lemma uses_only_setup_and_execute sql_tool base db wh (w : World sys) :
  uses_only sql_tool (setup_and_execute sql_tool base db wh w).
Proof.
  unfold setup_and_execute. cbv zeta.
  apply uses_only_bind; [apply uses_only_setup_database|]. intros _.
  apply uses_only_bind; [apply uses_only_execute_sql_scripts|]. intros _.
  apply uses_only_execute_sql_scripts.
Qed.

(** One engine's pipeline reads its set-up script and then the action
    script, and nothing else. *)
Lemma opened_setup_and_execute sql_tool base db wh (w : World sys) :
  let r := setup_and_execute sql_tool base db wh w in
  let files :=
    [base ++ "/" ++ (if sql_tool =? "bendsql" then "bend" else "snow") ++ "/setup.sql";
     base ++ "/action.sql"] in
  prefix_of (opened (trace r)) files /\
  (out r = Ret tt -> opened (trace r) = files).
Proof.
  cbv zeta. unfold setup_and_execute. cbv zeta.
  rewrite trace_bind, out_bind, opened_app, opened_setup_database.
  destruct (out (setup_database db sql_tool w)).
  2,3: split; [apply prefix_of_nil | discriminate].
  rewrite trace_bind, out_bind, opened_app, !opened_execute_sql_scripts.
  destruct (out (execute_sql_scripts sql_tool _ db wh _)).
  - rewrite opened_execute_sql_scripts. cbn [app].
    split; [apply prefix_of_refl | reflexivity].
  - cbn [app]. split; [now exists [base ++ "/action.sql"] | discriminate].
  - cbn [app]. split; [now exists [base ++ "/action.sql"] | discriminate].
Qed.

Lemma report_silent failed passed total (w : World sys) :
  silent (trace (report failed passed total w)) = [].
Proof.
  unfold report.
  assert (Hp : forall w' : World sys,
             silent (trace (match passed with
                            | [] => ret tt
                            | _ :: _ =>
                                print (colored sys (nl ++ "Passed Tests:") "green") ;;
                                for_each passed (fun '(test, elapsed_time) =>
                                  print (colored sys
                                    ("OK - " ++ test ++ " (" ++
                                     format_2f sys elapsed_time ++ "s)") "green"))
                            end w')) = []).
  { intros w'. destruct passed as [|p ps]; [reflexivity|].
    rewrite trace_bind, silent_app. cbn [print out final trace silent app].
    unfold for_each. apply for_fold_unobserved; [apply additive_silent|].
    intros [test el] s w''. reflexivity. }
  assert (Hf : forall w' : World sys,
             silent (trace (match failed with
                            | [] => ret tt
                            | _ :: _ =>
                                print (colored sys
                                  (nl ++ "Failed Tests and their differences:") "red") ;;
                                for_each failed (fun '(test, bend_result, snow_result) =>
                                  print (colored sys ("Test: " ++ test) "red") ;;
                                  print (colored sys
                                    ("bendsql result:" ++ nl ++ bend_result) "red") ;;
                                  print (colored sys
                                    ("snowsql result:" ++ nl ++ snow_result) "red"))
                            end w')) = []).
  { intros w'. destruct failed as [|f fs]; [reflexivity|].
    rewrite trace_bind, silent_app. cbn [print out final trace silent app].
    unfold for_each. apply for_fold_unobserved; [apply additive_silent|].
    intros [[test b] sn] s w''. reflexivity. }
  rewrite trace_bind, silent_app, Hp. cbn [app].
  destruct (out _); [|reflexivity..].
  rewrite trace_bind, silent_app, Hf. cbn [app].
  destruct (out _); reflexivity.
Qed.

Lemma check_query_opened db wh query tests (w : World sys) :
  opened (trace (check_query db wh query tests w)) = [].
Proof.
  destruct tests as [failed passed]. destruct (nonblank query) eqn:Hnb.
  - pose proof (check_query_spec db wh query failed passed w Hnb) as H.
    cbv zeta in H. rewrite <- opened_silent.
    destruct (out (execute_sql query "bendsql" db None _)).
    + destruct (out (execute_sql query "snowsql" db (Some wh) _)).
      * destruct H as (_ & _ & ->). reflexivity.
      * destruct H as (_ & ->). reflexivity.
      * destruct H as (_ & ->). reflexivity.
    + destruct H as (_ & ->). reflexivity.
    + destruct H as (_ & ->). reflexivity.
  - now rewrite check_query_blank.
Qed.

(** The comparator reads the check script and nothing else; its processes
    are the pairs of commands of the statements of that script. *)
Lemma run_check_sql_observed db wh path (w : World sys) :
  let r := run_check_sql db wh path w in
  opened (trace r) = [path] /\
  forall script,
    fst (open_read sys path (snd (time_time sys w))) = inl script ->
    prefix_of (spawned (trace r)) (check_commands db wh script) /\
    (out r = Ret tt -> spawned (trace r) = check_commands db wh script).
Proof.
  cbv zeta. unfold run_check_sql.
  rewrite trace_bind, out_bind, now_eq. cbn [out final trace].
  rewrite trace_bind, out_bind, read_file_eq. cbn [out final trace].
  set (w1 := snd (time_time sys w)).
  destruct (fst (open_read sys path w1)) as [script|msg] eqn:Hread.
  2: { split; [reflexivity|]. intros script [=]. }
  set (w2 := snd (open_read sys path w1)).
  rewrite trace_bind, out_bind.
  destruct (check_loop_spawned db wh w2 script) as [Hp Hr]. cbv zeta in Hp, Hr.
  assert (Ho : opened (trace (check_loop db wh (split ";" script) w2)) = []).
  { unfold check_loop. apply for_fold_unobserved; [apply additive_opened|].
    intros x s w'. apply check_query_opened. }
  set (loop := check_loop db wh (split ";" script) w2) in *.
  destruct (out loop) as [[failed passed]|c|e] eqn:Eo.
  - rewrite trace_bind, out_bind, now_eq. cbn [out final trace].
    split.
    + cbn [app opened]. rewrite !opened_app, Ho. cbn [app opened].
      now rewrite <- opened_silent, report_silent.
    + intros script' [= <-].
      assert (Hsp : spawned (Clock (fst (time_time sys w))
                      :: ([Opened path] ++ trace loop ++
                          [Clock (fst (time_time sys (final loop)))] ++
                          trace (report failed passed
                                   (time_sub sys (fst (time_time sys (final loop)))
                                      (fst (time_time sys w)))
                                   (snd (time_time sys (final loop)))))%list)
                    = check_commands db wh script).
      { cbn [app spawned]. rewrite !spawned_app. cbn [spawned].
        rewrite <- (spawned_silent (trace (report _ _ _ _))), report_silent.
        cbn [spawned]. rewrite app_nil_r. now apply (Hr (failed, passed)). }
      cbn [app] in *. rewrite Hsp. split; [apply prefix_of_refl | reflexivity].
  - split.
    + cbn [app opened]. now rewrite opened_app, Ho.
    + intros script' [= <-]. cbn [app spawned]. rewrite spawned_app, app_nil_r.
      split; [exact Hp | discriminate].
  - split.
    + cbn [app opened]. now rewrite opened_app, Ho.
    + intros script' [= <-]. cbn [app spawned]. rewrite spawned_app, app_nil_r.
      split; [exact Hp | discriminate].
Qed.

End PipelineOrder.

Section Sequencing.
Context {sys : Sys}.

(** A printed line, then [m], then [k] when [m] has returned. *)
Lemma trace_print_seq {A B} text (m : M sys A) (k : M sys B) (w : World sys) :
  trace (bind (bind (print text) (fun _ => m)) (fun _ => k) w) =
  (Printed text :: trace (m w) ++
     match out (m w) with
     | Ret _ => trace (k (final (m w)))
     | _ => []
     end)%list.
Proof.
  rewrite trace_bind, out_bind, final_bind, trace_bind.
  cbn [print out final trace app].
  destruct (out (m w)); now rewrite ?app_nil_r.
Qed.

(** A printed line, then [m1], then [m2], then [k], each when the one
    before has returned, in the world it left. *)
Lemma trace_print_seq2 {A B C} text (m1 : M sys A) (m2 : M sys B) (k : M sys C)
    (w : World sys) :
  trace (bind (bind (print text) (fun _ => bind m1 (fun _ => m2))) (fun _ => k) w) =
  (Printed text :: trace (m1 w) ++
     match out (m1 w) with
     | Ret _ =>
         trace (m2 (final (m1 w))) ++
         match out (m2 (final (m1 w))) with
         | Ret _ => trace (k (final (m2 (final (m1 w)))))
         | _ => []
         end
     | _ => []
     end)%list.
Proof.
  rewrite trace_print_seq, trace_bind, out_bind, final_bind.
  destruct (out (m1 w)); [|now rewrite ?app_nil_r..].
  destruct (out (m2 (final (m1 w)))); now rewrite <- ?app_assoc, ?app_nil_r.
Qed.

End Sequencing.

(** ** The comparator against its contract *)

Section Comparisons.
Context {sys : Sys}.

Lemma failed_of_cons (c : comparison (Time sys)) cs :
  failed_of (c :: cs) =
  ((if is_match c then [] else [(cmp_id c, bend_text c, snow_text c)])
   ++ failed_of cs)%list.
Proof. unfold failed_of. cbn [filter]. now destruct (is_match c). Qed.

Lemma passed_of_cons (c : comparison (Time sys)) cs :
  passed_of (c :: cs) =
  ((if is_match c then [(cmp_id c, cmp_elapsed c)] else []) ++ passed_of cs)%list.
Proof. unfold passed_of. cbn [filter]. now destruct (is_match c). Qed.

(** The loop of [run_check_sql] leaves the records of [comparisons], and
    returns exactly when [comparisons] has a result. *)
Lemma check_loop_comparisons db wh queries :
  forall failed0 passed0 (w : World sys),
    match comparisons db wh queries w with
    | Some (cs, w') =>
        out (for_fold queries (check_query db wh) (failed0, passed0) w)
          = Ret ((failed0 ++ failed_of cs)%list, (passed0 ++ passed_of cs)%list) /\
        final (for_fold queries (check_query db wh) (failed0, passed0) w) = w'
    | None =>
        forall tests,
          out (for_fold queries (check_query db wh) (failed0, passed0) w) <> Ret tests
    end.
Proof.
  induction queries as [|q qs IH]; intros failed0 passed0 w.
  - cbn. now rewrite !app_nil_r.
  - cbn [comparisons for_fold]. rewrite out_bind, final_bind.
    destruct (nonblank q) eqn:Hnb.
    + pose proof (check_query_spec db wh q failed0 passed0 w Hnb) as H.
      cbv zeta in H. cbv zeta. rewrite !fetch_query_results_eq.
      destruct (out (execute_sql q "bendsql" db None _)) as [bend|c|e].
      2,3: destruct H as (-> & _); intros tests; discriminate.
      destruct (out (execute_sql q "snowsql" db (Some wh) _)) as [snow|c|e].
      2,3: destruct H as (-> & _); intros tests; discriminate.
      destruct H as (-> & -> & _).
      set (w1 := snd (time_time sys _)).
      set (el := time_sub sys _ _).
      set (acc := if bend =? snow then _ else _).
      specialize (IH (fst acc) (snd acc) w1).
      replace acc with (fst acc, snd acc) by now destruct acc.
      destruct (comparisons db wh qs w1) as [[cs w']|]; [|exact IH].
      destruct IH as [Ho Hf]. rewrite Ho, Hf. split; [|reflexivity].
      rewrite failed_of_cons, passed_of_cons. unfold is_match, acc.
      cbn [bend_text snow_text cmp_id cmp_elapsed].
      destruct (bend =? snow); cbn [fst snd app];
        now rewrite <- ?app_assoc, ?app_nil_r.
    + rewrite check_query_blank by assumption. cbn [out final]. apply IH.
Qed.

Lemma comparisons_identifiers db wh queries :
  forall (w : World sys) cs w',
    comparisons db wh queries w = Some (cs, w') ->
    map cmp_id cs = map query_identifier (filter nonblank queries).
Proof.
  induction queries as [|q qs IH]; intros w cs w'.
  - cbn. now intros [= <- _].
  - cbn [comparisons filter]. destruct (nonblank q); [|apply IH].
    cbv zeta.
    destruct (out (fetch_query_results q "bendsql" db None _)); try discriminate.
    destruct (out (fetch_query_results q "snowsql" db (Some wh) _)); try discriminate.
    destruct (comparisons db wh qs _) as [[cs0 w0]|] eqn:E; [|discriminate].
    intros [= <- _]. cbn. now rewrite (IH _ _ _ E).
Qed.

Lemma failed_passed_length (cs : list (comparison (Time sys))) :
  length (failed_of cs) + length (passed_of cs) = length cs.
Proof.
  induction cs as [|c cs IH]; [reflexivity|].
  rewrite failed_of_cons, passed_of_cons, !length_app.
  destruct (is_match c); cbn; lia.
Qed.

Lemma in_failed_of (cs : list (comparison (Time sys))) id bend snow :
  In (id, bend, snow) (failed_of cs) <->
  exists elapsed, In (mkComparison id bend snow elapsed) cs /\ bend <> snow.
Proof.
  unfold failed_of. rewrite in_map_iff. split.
  - intros ([i b s e] & [= <- <- <-] & Hin). apply filter_In in Hin as [Hin Hm].
    exists e. split; [exact Hin|]. unfold is_match in Hm. cbn in Hm.
    apply negb_true_iff in Hm. now apply String.eqb_neq.
  - intros (e & Hin & Hne). exists (mkComparison id bend snow e).
    split; [reflexivity|]. apply filter_In. split; [exact Hin|].
    unfold is_match. cbn. apply negb_true_iff. now apply String.eqb_neq.
Qed.

Lemma in_passed_of (cs : list (comparison (Time sys))) id elapsed :
  In (id, elapsed) (passed_of cs) <->
  exists text, In (mkComparison id text text elapsed) cs.
Proof.
  unfold passed_of. rewrite in_map_iff. split.
  - intros ([i b s e] & [= <- <-] & Hin). apply filter_In in Hin as [Hin Hm].
    unfold is_match in Hm. cbn in Hm. apply String.eqb_eq in Hm as <-.
    now exists b.
  - intros (text & Hin). exists (mkComparison id text text elapsed).
    split; [reflexivity|]. apply filter_In. split; [exact Hin|].
    unfold is_match. cbn. apply String.eqb_refl.
Qed.

End Comparisons.

(** ** A pipeline that returns *)

Section PipelineReturns.
Context {sys : Sys}.

(** Three steps in a row. *)
Lemma trace_seq3 {A B C} (m1 : M sys A) (m2 : M sys B) (m3 : M sys C) (w : World sys) :
  trace (bind m1 (fun _ => bind m2 (fun _ => m3)) w) =
  (trace (m1 w) ++
   match out (m1 w) with
   | Ret _ =>
       trace (m2 (final (m1 w))) ++
       match out (m2 (final (m1 w))) with
       | Ret _ => trace (m3 (final (m2 (final (m1 w)))))
       | _ => []
       end
   | _ => []
   end)%list.
Proof.
  rewrite trace_bind. destruct (out (m1 w)); [|reflexivity..].
  now rewrite trace_bind.
Qed.

Lemma seq3_returns {A B C} (m1 : M sys A) (m2 : M sys B) (m3 : M sys C)
    (w : World sys) c :
  out (bind m1 (fun _ => bind m2 (fun _ => m3)) w) = Ret c ->
  exists a b,
    out (m1 w) = Ret a /\
    out (m2 (final (m1 w))) = Ret b /\
    out (m3 (final (m2 (final (m1 w))))) = Ret c.
Proof.
  rewrite out_bind. destruct (out (m1 w)) as [a| |]; try discriminate.
  rewrite out_bind. destruct (out (m2 (final (m1 w)))) as [b| |]; try discriminate.
  intros H. now exists a, b.
Qed.

(** Provisioning that returns has sent the drop and then the create. *)
Lemma setup_database_returning db sql_tool (w : World sys) :
  out (setup_database db sql_tool w) = Ret tt ->
  silent (trace (setup_database db sql_tool w))
    = map Spawned (provisioning_commands sql_tool db).
Proof.
  destruct (sql_tool =? "bendsql") eqn:E.
  - apply String.eqb_eq in E as ->. intros _.
    exact (proj1 (setup_database_bendsql db w)).
  - unfold setup_database, provisioning_commands. rewrite E.
    set (drop_query := "DROP DATABASE IF EXISTS " ++ db ++ ";").
    set (create_query := "CREATE DATABASE " ++ db ++ ";").
    destruct (execute_sql_run drop_query sql_tool db None w) as (_ & Hsd & _).
    set (rd := execute_sql drop_query sql_tool db None w) in *.
    destruct (execute_sql_run create_query sql_tool db None (final rd))
      as (_ & Hsc & _).
    rewrite out_bind, trace_bind, silent_app.
    rewrite out_bind, trace_bind, silent_app. fold rd. rewrite Hsd.
    destruct (out rd); try discriminate.
    rewrite out_bind, trace_bind, silent_app, Hsc.
    destruct (out (execute_sql create_query sql_tool db None (final rd)));
      try discriminate.
    intros _. reflexivity.
Qed.

(** A script that returns has read its file and sent every statement. *)
Lemma execute_sql_scripts_returning sql_tool path db wh (w : World sys) :
  out (execute_sql_scripts sql_tool path db wh w) = Ret tt ->
  exists script,
    fst (open_read sys path w) = inl script /\
    silent (trace (execute_sql_scripts sql_tool path db wh w))
      = Opened path :: script_events sql_tool db wh script.
Proof.
  intros Hret.
  pose proof (execute_sql_scripts_silent sql_tool path db wh w) as H.
  cbv zeta in H.
  destruct (fst (open_read sys path w)) as [script|msg].
  - exists script. split; [reflexivity|]. now apply H.
  - destruct H as [H _]. congruence.
Qed.

(** A pipeline that returns has provisioned, then read and run the set-up
    script, then read and run the action script. *)
Lemma setup_and_execute_returning sql_tool base db wh (w : World sys) :
  let setup_path :=
    base ++ "/" ++ (if sql_tool =? "bendsql" then "bend" else "snow") ++ "/setup.sql" in
  let action_path := base ++ "/action.sql" in
  let r := setup_and_execute sql_tool base db wh w in
  let r1 := setup_database db sql_tool w in
  let r2 := execute_sql_scripts sql_tool setup_path db wh (final r1) in
  out r = Ret tt ->
  exists setup_script action_script,
    fst (open_read sys setup_path (final r1)) = inl setup_script /\
    fst (open_read sys action_path (final r2)) = inl action_script /\
    silent (trace r)
      = pipeline_events sql_tool base db wh setup_script action_script.
Proof.
  cbv zeta. unfold setup_and_execute. cbv zeta. intros Hret.
  destruct (seq3_returns _ _ _ _ _ Hret) as ([] & [] & H1 & H2 & H3).
  rewrite trace_seq3, H1, H2, !silent_app.
  rewrite (setup_database_returning db sql_tool w H1).
  destruct (execute_sql_scripts_returning _ _ _ _ _ H2) as (s1 & Hr1 & ->).
  destruct (execute_sql_scripts_returning _ _ _ _ _ H3) as (s2 & Hr2 & ->).
  exists s1, s2. repeat split; assumption.
Qed.

Lemma setup_and_execute_trace sql_tool base db wh (w : World sys) :
  let setup_path :=
    base ++ "/" ++ (if sql_tool =? "bendsql" then "bend" else "snow") ++ "/setup.sql" in
  let action_path := base ++ "/action.sql" in
  let r1 := setup_database db sql_tool w in
  let r2 := execute_sql_scripts sql_tool setup_path db wh (final r1) in
  let r3 := execute_sql_scripts sql_tool action_path db wh (final r2) in
  trace (setup_and_execute sql_tool base db wh w) =
  (trace r1 ++
   match out r1 with
   | Ret _ => trace r2 ++ match out r2 with Ret _ => trace r3 | _ => [] end
   | _ => []
   end)%list.
Proof. cbv zeta. unfold setup_and_execute. cbv zeta. apply trace_seq3. Qed.

End PipelineReturns.

(** ** The comparator records one verdict per statement *)

(** C1. For a non-blank statement of the check script whose two executions
    return the texts [bend] and [snow], one iteration of [run_check_sql]
    appends exactly one record: an entry of [passed_tests] when the texts are
    equal as strings, and otherwise an entry of [failed_tests] that holds
    both texts as returned; in both cases the iteration returns, so the loop
    goes on.  Over a whole check script the loop leaves the records of
    [comparisons]: one comparison per non-blank statement, in script order,
    made of the two texts the engines returned for it; the failed records
    are the comparisons with different texts, with both texts as they are,
    and the passed records the comparisons with equal texts; these are the
    records that [run_check_sql] hands to its summary.  The loop
    returns exactly when every execution returns, whatever the verdicts;
    with engines that report no error it always does. *)
Theorem run_check_sql_one_record_per_statement (sys : Sys) (db wh : string) :
  (forall query failed passed (w : World sys) bend snow,
      nonblank query = true ->
      let t0 := fst (time_time sys w) in
      let rb := fetch_query_results query "bendsql" db None (snd (time_time sys w)) in
      let rs := fetch_query_results query "snowsql" db (Some wh) (final rb) in
      let t1 := fst (time_time sys (final rs)) in
      let r := check_query db wh query (failed, passed) w in
      out rb = Ret bend ->
      out rs = Ret snow ->
      (bend = snow ->
       out r = Ret (failed,
                    (passed ++ [(query_identifier query, time_sub sys t1 t0)])%list)) /\
      (bend <> snow ->
       out r = Ret ((failed ++ [(query_identifier query, bend, snow)])%list,
                    passed))) /\
  (forall queries (w : World sys),
      match comparisons db wh queries w with
      | Some (cs, w') =>
          out (check_loop db wh queries w) = Ret (failed_of cs, passed_of cs) /\
          final (check_loop db wh queries w) = w' /\
          map cmp_id cs = map query_identifier (filter nonblank queries) /\
          length (failed_of cs) + length (passed_of cs) = length cs
      | None =>
          forall tests, out (check_loop db wh queries w) <> Ret tests
      end) /\
  (forall path (w : World sys) script w1 cs w2,
      open_read sys path (snd (time_time sys w)) = (inl script, w1) ->
      comparisons db wh (split ";" script) w1 = Some (cs, w2) ->
      let t0 := fst (time_time sys w) in
      let t1 := fst (time_time sys w2) in
      let summary := report (failed_of cs) (passed_of cs) (time_sub sys t1 t0)
                            (snd (time_time sys w2)) in
      out (run_check_sql db wh path w) = out summary /\
      trace (run_check_sql db wh path w) =
        (Clock t0 :: Opened path
         :: trace (check_loop db wh (split ";" script) w1)
         ++ Clock t1 :: trace summary)%list) /\
  (forall (cs : list (comparison (Time sys))),
      (forall id bend snow,
          In (id, bend, snow) (failed_of cs) <->
          exists elapsed, In (mkComparison id bend snow elapsed) cs /\ bend <> snow) /\
      (forall id elapsed,
          In (id, elapsed) (passed_of cs) <->
          exists text, In (mkComparison id text text elapsed) cs)) /\
  (quiet_engines sys ->
   forall queries (w : World sys),
     exists failed passed, out (check_loop db wh queries w) = Ret (failed, passed)).
Proof.
  split; [|split; [|split; [|split]]].
  - intros query failed passed w bend snow Hnb. cbv zeta.
    rewrite !fetch_query_results_eq. intros Hb Hs.
    pose proof (check_query_spec db wh query failed passed w Hnb) as H.
    cbv zeta in H. rewrite Hb, Hs in H. destruct H as (-> & _ & _).
    split; intros Heq.
    + apply String.eqb_eq in Heq. now rewrite Heq.
    + apply String.eqb_neq in Heq. now rewrite Heq.
  - intros queries w. unfold check_loop.
    pose proof (check_loop_comparisons db wh queries [] [] w) as H.
    pose proof (comparisons_identifiers db wh queries w) as Hid.
    destruct (comparisons db wh queries w) as [[cs w']|]; [|exact H].
    destruct H as [Ho Hf]. cbn [app] in Ho.
    repeat split; try assumption.
    + now apply (Hid cs w').
    + apply failed_passed_length.
  - intros path w script w1 cs w2 Hread Hcs. cbv zeta.
    pose proof (check_loop_comparisons db wh (split ";" script) [] [] w1) as H.
    rewrite Hcs in H. destruct H as [Ho Hf]. cbn [app] in Ho.
    fold (check_loop db wh (split ";" script) w1) in Ho, Hf.
    unfold run_check_sql.
    rewrite out_bind, trace_bind, now_eq. cbn [out final trace].
    rewrite out_bind, trace_bind, read_file_eq, Hread. cbn [out final trace fst snd].
    rewrite out_bind, trace_bind, Ho, Hf.
    rewrite out_bind, trace_bind, now_eq. cbn [out final trace].
    split; reflexivity.
  - intros cs. split.
    + intros id bend snow. apply in_failed_of.
    + intros id elapsed. apply in_passed_of.
  - intros Hq queries w.
    destruct (check_loop_returns db wh queries Hq ([], []) w) as [[f p] H].
    now exists f, p.
Qed.

Lemma lab_quiet : quiet_engines Demo.lab.
Proof.
  intros argv w. cbn [subprocess_run Demo.lab Demo.scripted].
  exists (match Demo.respond Demo.engines argv with
          | inl cp => cp
          | inr _ => mkCompleted 0 "" ""
          end), w.
  unfold Demo.engines, Demo.respond.
  repeat match goal with
         | |- context [if ?c then _ else _] => destruct c
         end; split; reflexivity.
Defined.

(** On the two statements of the demo script: [SELECT 5] is recorded as
    failed with the texts 5 and 6, [SELECT 7] as passed; the loop over the
    script leaves exactly these two records, and it returns. *)
Lemma run_check_sql_one_record_per_statement_witness :
  out (check_query (sys := Demo.lab) "db" "WH" "SELECT 5" ([], []) 0)
    = Ret ([("Unknown Query", "5", "6")], []) /\
  out (check_query (sys := Demo.lab) "db" "WH" "SELECT 7" ([], []) 0)
    = Ret ([], [("Unknown Query", 1)]) /\
  out (check_loop (sys := Demo.lab) "db" "WH"
         (split ";" ("SELECT 5;" ++ nl ++ "SELECT 7;" ++ nl)) 0)
    = Ret ([("Unknown Query", "5", "6")], [("Unknown Query", 1)]) /\
  (exists failed passed,
      out (check_loop (sys := Demo.lab) "db" "WH"
             (split ";" ("SELECT 5;" ++ nl ++ "SELECT 7;" ++ nl)) 0)
        = Ret (failed, passed)) /\
  out (run_check_sql (sys := Demo.lab) "db" "WH" "sql/t/check.sql" 0)
    = out (report (sys := Demo.lab)
             [("Unknown Query", "5", "6")] [("Unknown Query", 1)] (5 - 0) 6).
Proof.
  destruct (run_check_sql_one_record_per_statement Demo.lab "db" "WH")
    as (Hstep & Hloop & Hrun & _ & Htotal).
  split; [|split; [|split; [|split]]].
  - refine (proj2 (Hstep "SELECT 5" [] [] 0 "5" "6" eq_refl eq_refl eq_refl) _).
    discriminate.
  - exact (proj1 (Hstep "SELECT 7" [] [] 0 "7" "7" eq_refl eq_refl eq_refl) eq_refl).
  - pose proof (Hloop (split ";" ("SELECT 5;" ++ nl ++ "SELECT 7;" ++ nl)) 0) as H.
    vm_compute in H. vm_compute. exact (proj1 H).
  - exact (Htotal lab_quiet (split ";" ("SELECT 5;" ++ nl ++ "SELECT 7;" ++ nl)) 0).
  - assert (Hcs : comparisons (sys := Demo.lab) "db" "WH"
                    (split ";" ("SELECT 5;" ++ nl ++ "SELECT 7;" ++ nl)) 1
                  = Some ([mkComparison "Unknown Query" "5" "6" 1;
                           mkComparison "Unknown Query" "7" "7" 1], 5))
      by (vm_compute; reflexivity).
    exact (proj1 (Hrun "sql/t/check.sql" 0 ("SELECT 5;" ++ nl ++ "SELECT 7;" ++ nl)
                    1 _ 5 eq_refl Hcs)).
Defined.

(** ** Classification of the captured text *)

(** C2 as the claim states it fails: the word [error] lies across the end
    of the standard output and the start of the error stream, so the two
    texts put together contain it and neither does alone; the statement is
    no drop, and [execute_sql] returns the standard output. *)
Lemma execute_sql_tests_each_stream_alone :
  subprocess_run Demo.halves (build_command "SELECT split" "bendsql" "db" None) 0
    = (inl (mkCompleted 0 "some err" "or in two streams"), 0) /\
  contains "error" (lower ("some err" ++ "or in two streams")) = true /\
  contains "DROP DATABASE" "SELECT split" = false /\
  out (execute_sql (sys := Demo.halves) "SELECT split" "bendsql" "db" None 0)
    = Ret "some err".
Proof. repeat split. Qed.

(** C2, amended. When the process completes, the statement does not contain
    [DROP DATABASE], and the lower-cased standard output contains [error],
    or the lower-cased error stream contains [error] (each stream is tested
    on its own), or the lower-cased standard output contains
    [unknown function], [execute_sql] calls [sys.exit(1)]: no [try] of the
    script stops it and nothing after the call runs.  The exit code of the
    process plays no part: the inspection of a completed process is the same
    for every exit code, and text without these patterns is returned whatever
    the exit code is. *)
Theorem execute_sql_exits_on_error_text (sys : Sys) :
  (forall query sql_tool db wh (w : World sys) cp w',
      subprocess_run sys (build_command query sql_tool db wh) w = (inl cp, w') ->
      contains "DROP DATABASE" query = false ->
      contains "error" (lower (stdout cp)) = true \/
      contains "error" (lower (stderr cp)) = true \/
      contains "unknown function" (lower (stdout cp)) = true ->
      out (execute_sql query sql_tool db wh w) = Exit 1 /\
      (forall catches h,
          out (try_except (execute_sql query sql_tool db wh) catches h w) = Exit 1) /\
      (forall B (k : string -> M sys B),
          out (bind (execute_sql query sql_tool db wh) k w) = Exit 1 /\
          trace (bind (execute_sql query sql_tool db wh) k w) =
            trace (execute_sql query sql_tool db wh w))) /\
  (forall query rc rc' output error (w : World sys),
      inspect_result query (mkCompleted rc output error) w =
      inspect_result query (mkCompleted rc' output error) w) /\
  (forall query sql_tool db wh (w : World sys) cp w',
      subprocess_run sys (build_command query sql_tool db wh) w = (inl cp, w') ->
      error_pattern (stdout cp) (stderr cp) = false ->
      out (execute_sql query sql_tool db wh w) = Ret (stdout cp)).
Proof.
  split; [|split].
  - intros query sql_tool db wh w cp w' Hrun Hdrop Hpat.
    assert (Hexit : out (execute_sql query sql_tool db wh w) = Exit 1).
    { destruct (execute_sql_run query sql_tool db wh w) as (_ & _ & Ho).
      rewrite Hrun in Ho. cbn [fst] in Ho. rewrite Ho.
      unfold classify. rewrite Hdrop.
      replace (error_pattern (stdout cp) (stderr cp)) with true; [reflexivity|].
      unfold error_pattern.
      destruct Hpat as [-> | [-> | ->]]; now rewrite ?orb_true_r. }
    split; [exact Hexit|]. split.
    + intros catches h. now rewrite (exit_through_try _ _ _ _ _ Hexit).
    + intros B k. now rewrite (exit_skips_rest _ _ _ _ Hexit).
  - reflexivity.
  - intros query sql_tool db wh w cp w' Hrun Hpat.
    destruct (execute_sql_run query sql_tool db wh w) as (_ & _ & Ho).
    rewrite Hrun in Ho. cbn [fst] in Ho. rewrite Ho.
    unfold classify. rewrite Hpat. now destruct (contains _ query).
Qed.

(** snowsql exits with code 0 and writes an error to standard error: the run
    ends with exit code 1.  bendsql exits with code 1 and writes no error:
    its output is returned. *)
Lemma execute_sql_exits_on_error_text_witness :
  out (execute_sql (sys := Demo.ward) "SELECT bad()" "snowsql" "db" (Some "WH") 0)
    = Exit 1 /\
  out (execute_sql (sys := Demo.ward) "SELECT odd" "bendsql" "db" None 0) = Ret "42".
Proof.
  destruct (execute_sql_exits_on_error_text Demo.ward) as (Hfatal & _ & Hclean).
  split.
  - refine (proj1 (Hfatal "SELECT bad()" "snowsql" "db" (Some "WH") 0
                     (mkCompleted 0 "" "SQL compilation error") 0
                     eq_refl eq_refl _)).
    right; left; reflexivity.
  - exact (Hclean "SELECT odd" "bendsql" "db" None 0
             (mkCompleted 1 "42" "warning: slow") 0 eq_refl eq_refl).
Defined.

(** C3. For a statement that contains [DROP DATABASE], [execute_sql] never
    calls [sys.exit], whatever the tool and whatever the process does; when
    the process completes the standard output is returned, after the notice
    that the database does not exist when the output followed by the error
    stream contains [Unknown database], and after the error line when one of
    the error patterns matches instead. *)
Theorem execute_sql_drop_database_never_exits (sys : Sys)
    query sql_tool db wh (w : World sys) :
  contains "DROP DATABASE" query = true ->
  (forall c, out (execute_sql query sql_tool db wh w) <> Exit c) /\
  (forall cp w',
      subprocess_run sys (build_command query sql_tool db wh) w = (inl cp, w') ->
      out (execute_sql query sql_tool db wh w) = Ret (stdout cp) /\
      (contains "Unknown database" (stdout cp ++ stderr cp) = true ->
       trace (execute_sql query sql_tool db wh w) =
         [announce query sql_tool db wh;
          Spawned (build_command query sql_tool db wh);
          Printed "Database doesn't exist, continuing with creation..."]) /\
      (contains "Unknown database" (stdout cp ++ stderr cp) = false ->
       error_pattern (stdout cp) (stderr cp) = true ->
       trace (execute_sql query sql_tool db wh w) =
         [announce query sql_tool db wh;
          Spawned (build_command query sql_tool db wh);
          Printed (colored sys ("Error detected in command output: "
                                ++ or_else (stdout cp) (stderr cp)) "red")])).
Proof.
  intros Hdrop.
  destruct (execute_sql_run query sql_tool db wh w) as (_ & _ & Ho).
  split.
  - intros c. rewrite Ho.
    destruct (fst (subprocess_run sys _ w)); [|discriminate].
    unfold classify. rewrite Hdrop. discriminate.
  - intros cp w' Hrun. rewrite (execute_sql_completed _ _ _ _ _ _ _ Hrun).
    cbn [out trace]. rewrite inspect_result_out. unfold classify. rewrite Hdrop.
    split; [reflexivity|].
    unfold inspect_result. rewrite Hdrop. cbn [andb].
    split.
    + intros ->. reflexivity.
    + intros -> ->. reflexivity.
Qed.

(** bendsql answers the drop of a missing database with [Unknown database]
    and exit code 1; snowsql answers another drop with an error text: both
    return the standard output. *)
Lemma execute_sql_drop_database_never_exits_witness :
  out (execute_sql (sys := Demo.ward) "DROP DATABASE gone" "bendsql" "default" None 0)
    = Ret "" /\
  trace (execute_sql (sys := Demo.ward) "DROP DATABASE gone" "bendsql" "default" None 0)
    = [Printed "Executing command: bendsql --query=DROP DATABASE gone -D default";
       Spawned ["bendsql"; "--query=DROP DATABASE gone"; "-D"; "default"];
       Printed "Database doesn't exist, continuing with creation..."] /\
  out (execute_sql (sys := Demo.ward) "DROP DATABASE held" "snowsql" "held" None 0)
    = Ret "Error: database in use".
Proof.
  pose proof (execute_sql_drop_database_never_exits Demo.ward
                "DROP DATABASE gone" "bendsql" "default" None 0 eq_refl) as [_ H1].
  pose proof (execute_sql_drop_database_never_exits Demo.ward
                "DROP DATABASE held" "snowsql" "held" None 0 eq_refl) as [_ H2].
  specialize (H1 (mkCompleted 1 "" "Unknown database 'gone'") 0 eq_refl).
  specialize (H2 (mkCompleted 0 "Error: database in use" "") 0 eq_refl).
  split; [exact (proj1 H1)|]. split; [exact (proj1 (proj2 H1) eq_refl)|].
  exact (proj1 H2).
Defined.

(** C10. The two tests of the tolerance are case-sensitive substring tests,
    [DROP DATABASE] in the statement and [Unknown database] in the output
    followed by the error stream.  The lower-case statement
    [drop database x] with [error] in the captured text ends the run with
    exit code 1; and for an upper-case drop, text that spells the phrase in
    another case and matches no error pattern is treated as a plain
    success, while the exact phrase gives the notice. *)
Theorem drop_database_tolerance_is_case_sensitive (sys : Sys) :
  (contains "drop database" (lower "drop database x") = true /\
   forall sql_tool db wh (w : World sys) cp w',
     subprocess_run sys (build_command "drop database x" sql_tool db wh) w
       = (inl cp, w') ->
     contains "error" (lower (stdout cp)) = true \/
     contains "error" (lower (stderr cp)) = true ->
     out (execute_sql "drop database x" sql_tool db wh w) = Exit 1) /\
  (forall query sql_tool db wh (w : World sys) cp w',
      subprocess_run sys (build_command query sql_tool db wh) w = (inl cp, w') ->
      contains "DROP DATABASE" query = true ->
      contains "Unknown database" (stdout cp ++ stderr cp) = false ->
      error_pattern (stdout cp) (stderr cp) = false ->
      trace (execute_sql query sql_tool db wh w) =
        [announce query sql_tool db wh;
         Spawned (build_command query sql_tool db wh);
         Printed "Command executed successfully. Output:";
         Printed (stdout cp)]) /\
  (forall query sql_tool db wh (w : World sys) cp w',
      subprocess_run sys (build_command query sql_tool db wh) w = (inl cp, w') ->
      contains "DROP DATABASE" query = true ->
      contains "Unknown database" (stdout cp ++ stderr cp) = true ->
      trace (execute_sql query sql_tool db wh w) =
        [announce query sql_tool db wh;
         Spawned (build_command query sql_tool db wh);
         Printed "Database doesn't exist, continuing with creation..."]).
Proof.
  split; [|split].
  - split; [reflexivity|].
    intros sql_tool db wh w cp w' Hrun Hpat.
    destruct (execute_sql_run "drop database x" sql_tool db wh w) as (_ & _ & Ho).
    rewrite Hrun in Ho. cbn [fst] in Ho. rewrite Ho.
    unfold classify.
    change (contains "DROP DATABASE" "drop database x") with false. cbv iota.
    replace (error_pattern (stdout cp) (stderr cp)) with true; [reflexivity|].
    unfold error_pattern. destruct Hpat as [-> | ->]; now rewrite ?orb_true_r.
  - intros query sql_tool db wh w cp w' Hrun Hdrop Hunk Hpat.
    rewrite (execute_sql_completed _ _ _ _ _ _ _ Hrun). cbn [trace].
    unfold inspect_result. now rewrite Hdrop, Hunk, Hpat.
  - intros query sql_tool db wh w cp w' Hrun Hdrop Hunk.
    rewrite (execute_sql_completed _ _ _ _ _ _ _ Hrun). cbn [trace].
    unfold inspect_result. now rewrite Hdrop, Hunk.
Qed.

(** bendsql answers [drop database x] with an error text: exit code 1.  It
    answers [DROP DATABASE x] with [unknown database x]: a plain success. *)
Lemma drop_database_tolerance_is_case_sensitive_witness :
  out (execute_sql (sys := Demo.ward) "drop database x" "bendsql" "default" None 0)
    = Exit 1 /\
  trace (execute_sql (sys := Demo.ward) "DROP DATABASE x" "bendsql" "default" None 0)
    = [Printed "Executing command: bendsql --query=DROP DATABASE x -D default";
       Spawned ["bendsql"; "--query=DROP DATABASE x"; "-D"; "default"];
       Printed "Command executed successfully. Output:";
       Printed "unknown database x"] /\
  trace (execute_sql (sys := Demo.ward) "DROP DATABASE gone" "bendsql" "default" None 0)
    = [Printed "Executing command: bendsql --query=DROP DATABASE gone -D default";
       Spawned ["bendsql"; "--query=DROP DATABASE gone"; "-D"; "default"];
       Printed "Database doesn't exist, continuing with creation..."].
Proof.
  destruct (drop_database_tolerance_is_case_sensitive Demo.ward)
    as ((_ & Hlow) & Hcase & Hexact).
  split; [|split].
  - refine (Hlow "bendsql" "default" None 0
              (mkCompleted 1 "" "error: unknown database x") 0 eq_refl _).
    right; reflexivity.
  - exact (Hcase "DROP DATABASE x" "bendsql" "default" None 0
             (mkCompleted 0 "unknown database x" "") 0
             eq_refl eq_refl eq_refl eq_refl).
  - exact (Hexact "DROP DATABASE gone" "bendsql" "default" None 0
             (mkCompleted 1 "" "Unknown database 'gone'") 0
             eq_refl eq_refl eq_refl).
Defined.

(** ** Statements of a script *)

(** C4 as the claim states it fails: the statements of the two-line script
    are [SELECT 5] and, with its leading line break, the fragment that holds
    [SELECT 7]; the script runner passes that fragment to bendsql as it is. *)
Lemma statements_are_not_trimmed :
  statements ("SELECT 5;" ++ nl ++ "SELECT 7;" ++ nl)
    = ["SELECT 5"; nl ++ "SELECT 7"] /\
  strip (nl ++ "SELECT 7") <> nl ++ "SELECT 7" /\
  spawned (trace (execute_sql_scripts (sys := Demo.lab)
                    "bendsql" "sql/t/check.sql" "db" None 0))
    = [["bendsql"; "--query=SELECT 5"; "-D"; "db"];
       ["bendsql"; "--query=" ++ nl ++ "SELECT 7"; "-D"; "db"]].
Proof.
  split; [reflexivity|]. split; [discriminate | reflexivity].
Qed.

(** C4, amended. Splitting a script on [;] gives fragments that, joined by
    [;], are the script again.  Its statements are the fragments that are
    not empty once stripped, each taken as it is (not stripped) and in the
    order of the script; empty and blank fragments are dropped and no other.
    Joining the statements by [;] and splitting again gives the same
    statements.  These are the statements both loops run: a script runner
    that returns has issued one command per statement, and a comparator loop
    that returns one pair of commands per statement, in this order. *)
Theorem statements_in_order_untrimmed (script : string) :
  join ";" (split ";" script) = script /\
  statements script = filter nonblank (split ";" script) /\
  Forall (fun q => strip q <> "" /\ sep_free ";" q = true) (statements script) /\
  (forall f, In f (statements script) <-> In f (split ";" script) /\ strip f <> "") /\
  statements (join ";" (statements script)) = statements script /\
  (forall (sys : Sys) sql_tool path db wh (w : World sys),
      fst (open_read sys path w) = inl script ->
      out (execute_sql_scripts sql_tool path db wh w) = Ret tt ->
      spawned (trace (execute_sql_scripts sql_tool path db wh w))
        = map (fun q => build_command q sql_tool db wh) (statements script)) /\
  (forall (sys : Sys) db wh (w : World sys) tests,
      out (check_loop db wh (split ";" script) w) = Ret tests ->
      spawned (trace (check_loop db wh (split ";" script) w))
        = flat_map (check_pair db wh) (statements script)).
Proof.
  split; [apply (join_split ";")|].
  split; [reflexivity|].
  split.
  { pose proof (statements_nonblank script) as Hn.
    pose proof (statements_sep_free script) as Hs.
    rewrite Forall_forall in *. intros q Hq. split.
    - now apply nonblank_strip, Hn.
    - now apply Hs. }
  split.
  { intros f. unfold statements. rewrite filter_In, nonblank_strip. reflexivity. }
  split; [apply statements_join|].
  split.
  - intros sys sql_tool path db wh w Hread Ho.
    now apply (execute_sql_scripts_spawned sql_tool path db wh w script Hread).
  - intros sys db wh w tests Ho.
    now apply (proj2 (check_loop_spawned db wh w script) tests).
Qed.

(** On the demo script, run by the script runner and by the comparator. *)
Lemma statements_in_order_untrimmed_witness :
  spawned (trace (execute_sql_scripts (sys := Demo.lab)
                    "snowsql" "sql/t/check.sql" "db" None 0))
    = map (fun q => build_command q "snowsql" "db" None)
          (statements ("SELECT 5;" ++ nl ++ "SELECT 7;" ++ nl)) /\
  spawned (trace (check_loop (sys := Demo.lab) "db" "WH"
                    (split ";" ("SELECT 5;" ++ nl ++ "SELECT 7;" ++ nl)) 0))
    = flat_map (check_pair "db" "WH")
               (statements ("SELECT 5;" ++ nl ++ "SELECT 7;" ++ nl)).
Proof.
  destruct (statements_in_order_untrimmed ("SELECT 5;" ++ nl ++ "SELECT 7;" ++ nl))
    as (_ & _ & _ & _ & _ & Hrun & Hcheck).
  split.
  - exact (Hrun Demo.lab "snowsql" "sql/t/check.sql" "db" None 0 eq_refl eq_refl).
  - exact (Hcheck Demo.lab "db" "WH" 0
             ([("Unknown Query", "5", "6")], [("Unknown Query", 1)]) eq_refl).
Defined.

(** ** Test identifiers *)

(** C6. A statement that begins with the comment [-- <token>:], the token
    made of word characters and dashes after any white space, has that token
    as its identifier; so the statement that begins with
    [-- MERGE-INTO-C13: comment] has the identifier [MERGE-INTO-C13].  A
    statement has the identifier [Unknown Query] exactly when the pattern
    matches at none of its positions. *)
Theorem query_identifier_of_leading_comment :
  (forall rest,
      query_identifier ("-- MERGE-INTO-C13: comment" ++ nl ++ rest)
        = "MERGE-INTO-C13") /\
  (forall ws tok rest,
      all_chars isspace ws = true ->
      tok <> "" ->
      all_chars word_or_dash tok = true ->
      query_identifier ("--" ++ ws ++ tok ++ ":" ++ rest) = tok) /\
  (forall query,
      (forall pre rest tok, query = pre ++ rest -> ~ tagged tok rest) <->
      query_identifier query = "Unknown Query").
Proof.
  assert (Hlead : forall ws tok rest,
             all_chars isspace ws = true -> tok <> "" ->
             all_chars word_or_dash tok = true ->
             query_identifier ("--" ++ ws ++ tok ++ ":" ++ rest) = tok).
  { intros ws tok rest Hws Hne Htok.
    apply (query_identifier_tagged "" _ tok).
    - now exists ws, rest.
    - intros p1 p2 tok' Hs Hp2. destruct p1; [|discriminate]. cbn in Hs. congruence. }
  split; [|split].
  - intros rest.
    apply (Hlead " " "MERGE-INTO-C13" (" comment" ++ nl ++ rest));
      [reflexivity | discriminate | reflexivity].
  - exact Hlead.
  - apply query_identifier_unknown.
Qed.

(** The token [T-1] after two blanks, and a statement without comment. *)
Lemma query_identifier_of_leading_comment_witness :
  query_identifier ("--  T-1: first" ++ nl ++ "SELECT 1") = "T-1" /\
  query_identifier "SELECT count(*) FROM t" = "Unknown Query".
Proof.
  destruct query_identifier_of_leading_comment as (_ & Hlead & Hnone).
  split.
  - apply (Hlead "  " "T-1" (" first" ++ nl ++ "SELECT 1"));
      [reflexivity | discriminate | reflexivity].
  - apply (proj1 (Hnone "SELECT count(*) FROM t")).
    exact (proj2 (Hnone "SELECT count(*) FROM t") eq_refl).
Defined.

(** C9. The identifier is the token of the first match of the pattern in
    the whole statement text: when a tag stands anywhere in the text and the
    pattern matches at no earlier position, its token is the identifier.  A
    comment on the second line gives the identifier, not [Unknown Query],
    and of two comments the first one counts. *)
Theorem query_identifier_first_match_anywhere :
  (forall pre rest tok,
      tagged tok rest ->
      untagged_before pre rest ->
      query_identifier (pre ++ rest) = tok) /\
  query_identifier ("SELECT 1" ++ nl ++ "-- T-2: late" ++ nl ++ "FROM t") = "T-2" /\
  query_identifier ("SELECT 1 -- A-1: x" ++ nl ++ "-- B-2: y") = "A-1".
Proof.
  split; [exact query_identifier_tagged|].
  split; reflexivity.
Qed.

(** A tag on the third line, after text that holds single dashes. *)
Lemma query_identifier_first_match_anywhere_witness :
  query_identifier ("SELECT a - b" ++ nl ++ "FROM t" ++ nl ++ "--LATE-3:" ++ nl)
    = "LATE-3".
Proof.
  apply (proj1 query_identifier_first_match_anywhere
           ("SELECT a - b" ++ nl ++ "FROM t" ++ nl) ("--LATE-3:" ++ nl) "LATE-3").
  - exists "", nl. repeat split; try reflexivity. discriminate.
  - apply none_before_untagged. reflexivity.
Defined.

(** ** Provisioning *)

(** C5 as the claim states it fails: the drop that [setup_database] sends to
    bendsql carries [IF EXISTS]. *)
Lemma setup_database_bendsql_drop_has_if_exists :
  spawned (trace (setup_database (sys := Demo.lab) "db" "bendsql" 0))
    = [["bendsql"; "--query=DROP DATABASE IF EXISTS db;"; "-D"; "default"];
       ["bendsql"; "--query=CREATE DATABASE db;"; "-D"; "default"]] /\
  contains "IF EXISTS" "--query=DROP DATABASE IF EXISTS db;" = true.
Proof. split; reflexivity. Qed.

(** C5, amended. Provisioning bendsql sends
    [DROP DATABASE IF EXISTS <name>;] and then [CREATE DATABASE <name>;],
    both with the database [default], whatever the drop does.  The drop
    never ends the run; an exception of the drop is caught and printed as a
    warning.  The result of provisioning is the result of the create: when
    the create completes without an error pattern, provisioning returns. *)
Theorem setup_database_bendsql_drop_then_create (sys : Sys) db (w : World sys) :
  let drop_query := "DROP DATABASE IF EXISTS " ++ db ++ ";" in
  let create_query := "CREATE DATABASE " ++ db ++ ";" in
  let rd := execute_sql drop_query "bendsql" "default" None w in
  let rc := execute_sql create_query "bendsql" "default" None (final rd) in
  let r := setup_database db "bendsql" w in
  spawned (trace r) =
    [["bendsql"; "--query=" ++ drop_query; "-D"; "default"];
     ["bendsql"; "--query=" ++ create_query; "-D"; "default"]] /\
  (forall c, out rd <> Exit c) /\
  (forall e, out rd = Raise e ->
     In (Printed ("Warning: Could not drop database (it may not exist): "
                  ++ exn_str e)) (trace r)) /\
  out r = match out rc with
          | Ret _ => Ret tt
          | Exit c => Exit c
          | Raise e => Raise e
          end /\
  (forall cp w',
      subprocess_run sys (build_command create_query "bendsql" "default" None)
        (final rd) = (inl cp, w') ->
      error_pattern (stdout cp) (stderr cp) = false ->
      out r = Ret tt).
Proof.
  cbv zeta.
  destruct (setup_database_bendsql db w) as (Hs & Ho). cbv zeta in Hs, Ho.
  destruct (guarded_drop db w) as (_ & _ & _ & Hne & Hwarn). cbv zeta in Hne, Hwarn.
  split; [now rewrite <- spawned_silent, Hs|].
  split; [exact Hne|].
  split.
  { intros e He. unfold setup_database.
    change ("bendsql" =? "bendsql") with true. cbv iota.
    rewrite trace_bind, trace_bind, (Hwarn e He).
    apply in_or_app; left. apply in_or_app; left.
    apply in_or_app; right. now left. }
  split; [exact Ho|].
  intros cp w' Hrun Hpat. rewrite Ho.
  destruct (execute_sql_run ("CREATE DATABASE " ++ db ++ ";") "bendsql" "default" None
              (final (execute_sql ("DROP DATABASE IF EXISTS " ++ db ++ ";")
                        "bendsql" "default" None w))) as (_ & _ & Hc).
  rewrite Hrun in Hc. cbn [fst] in Hc. rewrite Hc.
  unfold classify. rewrite Hpat. now destruct (contains _ _).
Qed.

(** bendsql cannot be reached for the drop: the warning is printed, the
    create runs, and provisioning returns. *)
Lemma setup_database_bendsql_drop_then_create_witness :
  In (Printed "Warning: Could not drop database (it may not exist): connection refused")
     (trace (setup_database (sys := Demo.fresh) "db" "bendsql" 0)) /\
  out (setup_database (sys := Demo.fresh) "db" "bendsql" 0) = Ret tt.
Proof.
  destruct (setup_database_bendsql_drop_then_create Demo.fresh "db" 0)
    as (_ & _ & Hwarn & _ & Hcreate).
  split.
  - exact (Hwarn (OtherException "connection refused") eq_refl).
  - exact (Hcreate (mkCompleted 0 "" "") 0 eq_refl eq_refl).
Defined.

(** ** Order of execution *)



(** ** The orchestrator *)

(** C8. With [--run-check-only], [main] is the comparator on [check.sql]
    and nothing else.  Otherwise it prints a line and runs one engine's
    pipeline ([--runbend], else [--runsnow]) or, with neither flag, the
    bendsql pipeline and then, when that has returned and in the world it
    left, the snowsql pipeline; the comparator runs after the pipelines have
    returned.  A pipeline is provisioning, then the set-up script, then the
    action script, each when the one before has returned: a pipeline that
    returns has sent the drop and the create, then read its set-up script
    and sent its statements, then read the action script and sent its
    statements, all through its own client.  The comparator reads
    [check.sql] and sends each statement to bendsql and to snowsql. *)
Theorem main_runs_the_pipeline_of_its_mode (sys : Sys) (args : Args) (w : World sys) :
  let base := "sql/" ++ case args in
  let db := database args in
  let wh := warehouse args in
  let check := run_check_sql db wh (base ++ "/check.sql") in
  let bend := setup_and_execute "bendsql" base db None in
  let snow := setup_and_execute "snowsql" base db (Some wh) in
  let after {A} (r : result sys A) (k : World sys -> list (event (Time sys))) :=
    match out r with Ret _ => k (final r) | _ => [] end in
  (run_check_only args = true -> main args w = check w) /\
  (run_check_only args = false -> runbend args = true ->
   trace (main args w) =
     (Printed "Setting up and executing scripts for bendsql..."
      :: trace (bend w) ++ after (bend w) (fun w1 => trace (check w1)))%list) /\
  (run_check_only args = false -> runbend args = false -> runsnow args = true ->
   trace (main args w) =
     (Printed "Setting up and executing scripts for snowsql..."
      :: trace (snow w) ++ after (snow w) (fun w1 => trace (check w1)))%list) /\
  (run_check_only args = false -> runbend args = false -> runsnow args = false ->
   trace (main args w) =
     (Printed "Setting up and executing scripts for both bendsql and snowsql..."
      :: trace (bend w) ++
         after (bend w) (fun w1 =>
           trace (snow w1) ++
           after (snow w1) (fun w2 => trace (check w2))))%list) /\
  (forall w1,
      uses_only "bendsql" (bend w1) /\
      prefix_of (opened (trace (bend w1)))
                [base ++ "/bend/setup.sql"; base ++ "/action.sql"]) /\
  (forall w1,
      uses_only "snowsql" (snow w1) /\
      prefix_of (opened (trace (snow w1)))
                [base ++ "/snow/setup.sql"; base ++ "/action.sql"]) /\
  (forall w1,
      opened (trace (check w1)) = [base ++ "/check.sql"] /\
      forall script,
        fst (open_read sys (base ++ "/check.sql") (snd (time_time sys w1)))
          = inl script ->
        prefix_of (spawned (trace (check w1)))
          (flat_map (fun q => [build_command q "bendsql" db None;
                               build_command q "snowsql" db (Some wh)])
                    (statements script))) /\
  (forall sql_tool wh' w1,
      let setup_path :=
        base ++ "/" ++ (if sql_tool =? "bendsql" then "bend" else "snow")
        ++ "/setup.sql" in
      let action_path := base ++ "/action.sql" in
      let r := setup_and_execute sql_tool base db wh' w1 in
      let r1 := setup_database db sql_tool w1 in
      let r2 := execute_sql_scripts sql_tool setup_path db wh' (final r1) in
      let r3 := execute_sql_scripts sql_tool action_path db wh' (final r2) in
      trace r =
        (trace r1 ++
         after r1 (fun _ => trace r2 ++ after r2 (fun _ => trace r3)))%list /\
      (out r = Ret tt ->
       exists setup_script action_script,
         fst (open_read sys setup_path (final r1)) = inl setup_script /\
         fst (open_read sys action_path (final r2)) = inl action_script /\
         silent (trace r) =
           (map Spawned
              [build_command ("DROP DATABASE IF EXISTS " ++ db ++ ";") sql_tool
                 (if sql_tool =? "bendsql" then "default" else db) None;
               build_command ("CREATE DATABASE " ++ db ++ ";") sql_tool
                 (if sql_tool =? "bendsql" then "default" else db) None]
            ++ Opened setup_path
            :: map (fun q => Spawned (build_command q sql_tool db wh'))
                   (statements setup_script)
            ++ Opened action_path
            :: map (fun q => Spawned (build_command q sql_tool db wh'))
                   (statements action_script))%list)) /\
  (forall w1 script,
      fst (open_read sys (base ++ "/check.sql") (snd (time_time sys w1)))
        = inl script ->
      out (check w1) = Ret tt ->
      spawned (trace (check w1)) =
        flat_map (fun q => [build_command q "bendsql" db None;
                            build_command q "snowsql" db (Some wh)])
                 (statements script)).
Proof.
  cbv zeta.
  split; [|split; [|split; [|split; [|split; [|split; [|split; [|split]]]]]]].
  - intros Hc. unfold main. now rewrite Hc.
  - intros Hc Hb. unfold main. rewrite Hc, Hb. cbv zeta.
    apply trace_print_seq.
  - intros Hc Hb Hs. unfold main. rewrite Hc, Hb, Hs. cbv zeta.
    apply trace_print_seq.
  - intros Hc Hb Hs. unfold main. rewrite Hc, Hb, Hs. cbv zeta.
    apply trace_print_seq2.
  - intros w1. split; [apply uses_only_setup_and_execute|].
    apply (opened_setup_and_execute "bendsql").
  - intros w1. split; [apply uses_only_setup_and_execute|].
    apply (opened_setup_and_execute "snowsql").
  - intros w1.
    destruct (run_check_sql_observed (database args) (warehouse args)
                ("sql/" ++ case args ++ "/check.sql") w1) as [Ho Hs].
    split; [exact Ho|]. intros script Hread. now apply Hs.
  - intros sql_tool wh' w1. split.
    + apply setup_and_execute_trace.
    + intros Hret.
      destruct (setup_and_execute_returning sql_tool ("sql/" ++ case args)
                  (database args) wh' w1 Hret) as (s1 & s2 & H1 & H2 & Hs).
      exists s1, s2. repeat split; try assumption.
      rewrite Hs. unfold pipeline_events, provisioning_commands, script_events,
        script_commands. now rewrite !map_map.
  - intros w1 script Hread Hret.
    destruct (run_check_sql_observed (database args) (warehouse args)
                ("sql/" ++ case args ++ "/check.sql") w1) as [_ Hs].
    now apply (Hs script Hread).
Qed.

(** The four modes on the demo fixtures: the files read, and for the
    default mode the clients of the processes, in order; and the bendsql
    pipeline in full, prints aside. *)
Lemma main_runs_the_pipeline_of_its_mode_witness :
  main (sys := Demo.suite) Demo.args_check 0
    = run_check_sql (sys := Demo.suite) "db" "WH" "sql/t/check.sql" 0 /\
  opened (trace (main (sys := Demo.suite) Demo.args_bend 0))
    = ["sql/t/bend/setup.sql"; "sql/t/action.sql"; "sql/t/check.sql"] /\
  opened (trace (main (sys := Demo.suite) Demo.args_snow 0))
    = ["sql/t/snow/setup.sql"; "sql/t/action.sql"; "sql/t/check.sql"] /\
  opened (trace (main (sys := Demo.suite) Demo.args_both 0))
    = ["sql/t/bend/setup.sql"; "sql/t/action.sql";
       "sql/t/snow/setup.sql"; "sql/t/action.sql"; "sql/t/check.sql"] /\
  map (hd "") (spawned (trace (main (sys := Demo.suite) Demo.args_both 0)))
    = ["bendsql"; "bendsql"; "bendsql"; "bendsql";
       "snowsql"; "snowsql"; "snowsql"; "snowsql";
       "bendsql"; "snowsql"; "bendsql"; "snowsql"] /\
  silent (trace (setup_and_execute (sys := Demo.suite) "bendsql" "sql/t" "db" None 0))
    = [Spawned ["bendsql"; "--query=DROP DATABASE IF EXISTS db;"; "-D"; "default"];
       Spawned ["bendsql"; "--query=CREATE DATABASE db;"; "-D"; "default"];
       Opened "sql/t/bend/setup.sql";
       Spawned ["bendsql"; "--query=CREATE TABLE t(a int)"; "-D"; "db"];
       Opened "sql/t/action.sql";
       Spawned ["bendsql"; "--query=INSERT INTO t VALUES (7)"; "-D"; "db"]] /\
  spawned (trace (run_check_sql (sys := Demo.suite) "db" "WH" "sql/t/check.sql" 0))
    = [build_command "SELECT 5" "bendsql" "db" None;
       build_command "SELECT 5" "snowsql" "db" (Some "WH");
       build_command (nl ++ "SELECT 7") "bendsql" "db" None;
       build_command (nl ++ "SELECT 7") "snowsql" "db" (Some "WH")].
Proof.
  destruct (main_runs_the_pipeline_of_its_mode Demo.suite Demo.args_check 0)
    as (Hcheck & _).
  destruct (main_runs_the_pipeline_of_its_mode Demo.suite Demo.args_bend 0)
    as (_ & Hbend & _).
  destruct (main_runs_the_pipeline_of_its_mode Demo.suite Demo.args_snow 0)
    as (_ & _ & Hsnow & _).
  destruct (main_runs_the_pipeline_of_its_mode Demo.suite Demo.args_both 0)
    as (_ & _ & _ & Hboth & _ & _ & _ & Hpipe & Hcmp).
  split; [exact (Hcheck eq_refl)|].
  split; [rewrite (Hbend eq_refl eq_refl); reflexivity|].
  split; [rewrite (Hsnow eq_refl eq_refl eq_refl); reflexivity|].
  split; [rewrite (Hboth eq_refl eq_refl eq_refl); reflexivity|].
  split; [rewrite (Hboth eq_refl eq_refl eq_refl); reflexivity|].
  split.
  - destruct (proj2 (Hpipe "bendsql" None 0) eq_refl)
      as (s1 & s2 & H1 & H2 & Hs).
    vm_compute in H1, H2. injection H1 as <-. injection H2 as <-.
    vm_compute in Hs. vm_compute. exact Hs.
  - pose proof (Hcmp 0 ("SELECT 5;" ++ nl ++ "SELECT 7;" ++ nl) eq_refl eq_refl) as H.
    vm_compute in H. vm_compute. exact H.
Defined.

(** * Further properties of the script *)

(** ** The engine adapter: outcomes and command lines *)

(** X1. When the process completes, [execute_sql] returns exactly its
    standard output or exits with code 1, in the world the process left;
    when the process cannot be started, the exception reaches the caller
    after the command line was printed.  The handler for
    [CalledProcessError] never runs: that exception is never the outcome. *)
Theorem execute_sql_outcomes (sys : Sys) query sql_tool db wh (w : World sys) :
  let cmd := build_command query sql_tool db wh in
  let r := execute_sql query sql_tool db wh w in
  match subprocess_run sys cmd w with
  | (inl cp, w') =>
      (out r = Ret (stdout cp) \/ out r = Exit 1) /\ final r = w'
  | (inr msg, w') =>
      r = mkResult (Raise (OtherException msg)) w'
            [announce query sql_tool db wh; Spawned cmd]
  end /\
  (forall err, out r <> Raise (CalledProcessError err)).
Proof.
  cbv zeta.
  destruct (execute_sql_run query sql_tool db wh w) as (Hf & _ & Ho).
  destruct (subprocess_run sys (build_command query sql_tool db wh) w)
    as [[cp|msg] w'] eqn:Hrun; cbn [fst snd] in *.
  - split; [split; [|exact Hf]|].
    + rewrite Ho. unfold classify.
      destruct (contains _ query); [now left|].
      destruct (error_pattern _ _); [now right | now left].
    + intros err. rewrite Ho. unfold classify.
      destruct (contains _ query); [discriminate|].
      destruct (error_pattern _ _); discriminate.
  - split; [now apply execute_sql_not_started|].
    intros err. rewrite Ho. discriminate.
Qed.

(** snowsql completes with an error on its error stream; an unknown
    client of the scripted environment completes with empty output. *)
Lemma execute_sql_outcomes_witness :
  ((out (execute_sql (sys := Demo.ward) "SELECT bad()" "snowsql" "db" None 0) = Ret ""
    \/ out (execute_sql (sys := Demo.ward) "SELECT bad()" "snowsql" "db" None 0) = Exit 1)
   /\ final (execute_sql (sys := Demo.ward) "SELECT bad()" "snowsql" "db" None 0) = 0) /\
  execute_sql (sys := Demo.fresh) "DROP DATABASE x" "bendsql" "default" None 0
    = mkResult (sys := Demo.fresh) (Raise (OtherException "connection refused")) 0
        [Printed "Executing command: bendsql --query=DROP DATABASE x -D default";
         Spawned ["bendsql"; "--query=DROP DATABASE x"; "-D"; "default"]].
Proof.
  split.
  - exact (proj1 (execute_sql_outcomes Demo.ward "SELECT bad()" "snowsql" "db" None 0)).
  - exact (proj1 (execute_sql_outcomes Demo.fresh "DROP DATABASE x" "bendsql"
                    "default" None 0)).
Defined.

(** X2. The verdict of the comparator looks at the standard outputs only:
    when both processes complete without an error pattern and with equal
    standard outputs, the statement is recorded as passed, whatever the
    error streams and the exit codes are. *)
Theorem comparator_ignores_stderr_and_exit_code (sys : Sys)
    db wh query failed passed (w : World sys) cpb wb cps ws :
  nonblank query = true ->
  subprocess_run sys (build_command query "bendsql" db None) (snd (time_time sys w))
    = (inl cpb, wb) ->
  subprocess_run sys (build_command query "snowsql" db (Some wh)) wb
    = (inl cps, ws) ->
  error_pattern (stdout cpb) (stderr cpb) = false ->
  error_pattern (stdout cps) (stderr cps) = false ->
  stdout cpb = stdout cps ->
  out (check_query db wh query (failed, passed) w) =
    Ret (failed,
         (passed ++ [(query_identifier query,
                      time_sub sys (fst (time_time sys ws))
                                   (fst (time_time sys w)))])%list).
Proof.
  intros Hnb Hb Hs Hpb Hps Heq.
  pose proof (check_query_spec db wh query failed passed w Hnb) as H.
  cbv zeta in H.
  destruct (execute_sql_run query "bendsql" db None (snd (time_time sys w)))
    as (Hfb & _ & Hob).
  rewrite Hb in Hfb, Hob. cbn [fst snd] in Hfb, Hob.
  rewrite Hfb in H.
  destruct (execute_sql_run query "snowsql" db (Some wh) wb) as (Hfs & _ & Hos).
  rewrite Hs in Hfs, Hos. cbn [fst snd] in Hfs, Hos.
  assert (Hcb : classify query cpb = Ret (stdout cpb)).
  { unfold classify. rewrite Hpb. now destruct (contains _ query). }
  assert (Hcs : classify query cps = Ret (stdout cps)).
  { unfold classify. rewrite Hps. now destruct (contains _ query). }
  rewrite Hob, Hcb, Hos, Hcs, Hfs in H.
  destruct H as (-> & _ & _).
  now rewrite Heq, String.eqb_refl.
Qed.

(** bendsql warns on its error stream and exits with code 1, snowsql does
    neither; both print 42: the statement passes. *)
Lemma comparator_ignores_stderr_and_exit_code_witness :
  out (check_query (sys := Demo.noisy) "db" "WH" "SELECT odd" ([], []) 0)
    = Ret ([], [("Unknown Query", 1)]).
Proof.
  exact (comparator_ignores_stderr_and_exit_code Demo.noisy "db" "WH" "SELECT odd"
           [] [] 0 (mkCompleted 1 "42" "warning: slow") 1 (mkCompleted 0 "42" "") 1
           eq_refl eq_refl eq_refl eq_refl eq_refl eq_refl).
Defined.

(** X3. bendsql never sees the warehouse; for snowsql an empty warehouse is
    no warehouse, and a non-empty one is passed as the last two arguments;
    a client that is neither of the two is started without any argument,
    so the statement is not sent at all. *)
Theorem warehouse_and_client_arguments (sys : Sys) query db (w : World sys) :
  (forall wh, execute_sql query "bendsql" db wh w
              = execute_sql query "bendsql" db None w) /\
  execute_sql query "snowsql" db (Some "") w = execute_sql query "snowsql" db None w /\
  (forall wh, wh <> "" ->
     build_command query "snowsql" db (Some wh)
       = (build_command query "snowsql" db None ++ ["--warehouse"; wh])%list) /\
  (forall sql_tool wh,
     sql_tool <> "snowsql" -> sql_tool <> "bendsql" ->
     spawned (trace (execute_sql query sql_tool db wh w)) = [[sql_tool]]).
Proof.
  split; [|split; [|split]].
  - intros wh. reflexivity.
  - reflexivity.
  - intros wh Hne. unfold build_command. cbn.
    destruct wh; [congruence | reflexivity].
  - intros sql_tool wh Hs Hb.
    destruct (execute_sql_run query sql_tool db wh w) as (_ & Htr & _).
    rewrite <- spawned_silent, Htr. cbn [spawned]. unfold build_command.
    apply String.eqb_neq in Hs, Hb. now rewrite Hs, Hb.
Qed.

(** The warehouse [WH] for snowsql, and the client [psql]. *)
Lemma warehouse_and_client_arguments_witness :
  build_command "SELECT 1" "snowsql" "db" (Some "WH")
    = (build_command "SELECT 1" "snowsql" "db" None ++ ["--warehouse"; "WH"])%list /\
  spawned (trace (execute_sql (sys := Demo.lab) "SELECT 1" "psql" "db" (Some "WH") 0))
    = [["psql"]].
Proof.
  destruct (warehouse_and_client_arguments Demo.lab "SELECT 1" "db" 0)
    as (_ & _ & Hwh & Hother).
  split.
  - apply Hwh. discriminate.
  - apply Hother; discriminate.
Defined.

(** ** Scripts: missing files, fatal statements, blank scripts *)

Section ScriptLemmas.
Context {sys : Sys}.

Lemma result_eq {A} (r : result sys A) o f t :
  out r = o -> final r = f -> trace r = t -> r = mkResult o f t.
Proof. destruct r; cbn; now intros -> -> ->. Qed.

Lemma execute_sql_scripts_unfold sql_tool path db wh :
  execute_sql_scripts (sys := sys) sql_tool path db wh =
  (print ("Executing SQL scripts from: " ++ path ++ " using " ++ sql_tool) ;;
   sql_script <- read_file path ;;
   run_statements sql_tool db wh (split ";" sql_script)).
Proof. reflexivity. Qed.

(** A loop whose first iterations return and whose next one does not ends
    there, with the outcome of that iteration. *)
Lemma for_fold_stops {X S} (body : X -> S -> M sys S) xs x ys :
  forall s (w : World sys) s1,
    out (for_fold xs body s w) = Ret s1 ->
    let rx := body x s1 (final (for_fold xs body s w)) in
    (forall a, out rx <> Ret a) ->
    out (for_fold (xs ++ x :: ys) body s w) = out rx /\
    final (for_fold (xs ++ x :: ys) body s w) = final rx /\
    trace (for_fold (xs ++ x :: ys) body s w) =
      (trace (for_fold xs body s w) ++ trace rx)%list.
Proof.
  induction xs as [|x0 xs IH]; intros s w s1 Hret; cbv zeta.
  - cbn in Hret. injection Hret as <-. cbn [app for_fold ret out final trace].
    intros Hstop. rewrite out_bind, final_bind, trace_bind.
    destruct (out (body x s w)) as [a|c|e]; [now destruct (Hstop a)|..];
      now rewrite app_nil_r.
  - cbn [app for_fold] in *. rewrite out_bind in Hret.
    rewrite out_bind, !final_bind, !trace_bind.
    destruct (out (body x0 s w)) as [s0|c|e]; try discriminate.
    intros Hstop.
    destruct (IH s0 (final (body x0 s w)) s1 Hret Hstop) as (Ho & Hf & Ht).
    rewrite Ho, Hf, Ht. now rewrite app_assoc.
Qed.

(** A loop over items that change nothing returns where it started. *)
Lemma for_fold_idle {X S} (body : X -> S -> M sys S) xs :
  (forall x s w, In x xs -> body x s w = mkResult (Ret s) w []) ->
  forall s (w : World sys), for_fold xs body s w = mkResult (Ret s) w [].
Proof.
  induction xs as [|x xs IH]; intros Hidle s w; [reflexivity|].
  cbn [for_fold]. unfold bind. rewrite (Hidle x s w (or_introl eq_refl)).
  cbn [out final trace]. rewrite IH; [reflexivity|].
  intros x' s' w' Hin. apply Hidle. now right.
Qed.

Lemma run_statements_spawned sql_tool db wh queries (w : World sys) :
  let r := run_statements sql_tool db wh queries w in
  prefix_of (spawned (trace r))
            (map (fun q => build_command q sql_tool db wh) (filter nonblank queries)) /\
  (out r = Ret tt ->
   spawned (trace r)
     = map (fun q => build_command q sql_tool db wh) (filter nonblank queries)).
Proof.
  cbv zeta. unfold run_statements, for_each.
  rewrite <- flat_map_filter.
  destruct (for_fold_observed (sys := sys) spawned
              (fun q => if nonblank q then [build_command q sql_tool db wh] else [])
              (fun query (_ : unit) =>
                 if truthy (strip query)
                 then execute_sql query sql_tool db wh ;; ret tt
                 else ret tt)
              additive_spawned) with (xs := queries) (s := tt) (w := w) as [Hp Hr].
  { intros x s w'. rewrite <- spawned_silent, script_body_silent.
    destruct (nonblank x); split; try apply prefix_of_refl; reflexivity. }
  split; [exact Hp | intros Ho; now apply (Hr tt)].
Qed.

Lemma nonblank_none_in queries :
  filter nonblank queries = [] -> forall q, In q queries -> nonblank q = false.
Proof.
  intros Hf q Hin. destruct (nonblank q) eqn:E; [|reflexivity].
  assert (Hq : In q (filter nonblank queries)) by now apply filter_In.
  rewrite Hf in Hq. destruct Hq.
Qed.

End ScriptLemmas.

(** X4. A missing or unreadable fixture ends the run with the exception of
    the read: the script runner has printed its line and started no
    process; the comparator has read the clock, started no process and
    printed no summary. *)
Theorem unreadable_fixture_raises (sys : Sys) :
  (forall sql_tool path db wh (w : World sys) msg w',
      open_read sys path w = (inr msg, w') ->
      execute_sql_scripts sql_tool path db wh w =
        mkResult (Raise (OtherException msg)) w'
          [Printed ("Executing SQL scripts from: " ++ path ++ " using " ++ sql_tool);
           Opened path]) /\
  (forall db wh path (w : World sys) msg w',
      open_read sys path (snd (time_time sys w)) = (inr msg, w') ->
      run_check_sql db wh path w =
        mkResult (Raise (OtherException msg)) w'
          [Clock (fst (time_time sys w)); Opened path]).
Proof.
  split.
  - intros sql_tool path db wh w msg w' Hread.
    unfold execute_sql_scripts, bind, print, read_file. cbn [out final trace].
    rewrite Hread. reflexivity.
  - intros db wh path w msg w' Hread.
    unfold run_check_sql. apply result_eq.
    + rewrite out_bind, now_eq. cbn [out final trace].
      now rewrite out_bind, read_file_eq, Hread.
    + rewrite final_bind, now_eq. cbn [out final trace].
      now rewrite final_bind, read_file_eq, Hread.
    + rewrite trace_bind, now_eq. cbn [out final trace].
      now rewrite trace_bind, read_file_eq, Hread.
Qed.

(** The demo fixtures have no set-up script for the case [u]. *)
Lemma unreadable_fixture_raises_witness :
  execute_sql_scripts (sys := Demo.lab) "bendsql" "sql/u/bend/setup.sql" "db" None 0
    = mkResult (sys := Demo.lab)
        (Raise (OtherException "No such file or directory: sql/u/bend/setup.sql"))
        0 [Printed "Executing SQL scripts from: sql/u/bend/setup.sql using bendsql";
           Opened "sql/u/bend/setup.sql"] /\
  run_check_sql (sys := Demo.lab) "db" "WH" "sql/u/check.sql" 0
    = mkResult (sys := Demo.lab)
        (Raise (OtherException "No such file or directory: sql/u/check.sql"))
        1 [Clock 0; Opened "sql/u/check.sql"].
Proof.
  destruct (unreadable_fixture_raises Demo.lab) as [Hrun Hcheck].
  split.
  - exact (Hrun "bendsql" "sql/u/bend/setup.sql" "db" None 0 _ 0 eq_refl).
  - exact (Hcheck "db" "WH" "sql/u/check.sql" 0 _ 1 eq_refl).
Defined.

(** X5. A fatal statement ends a script at once: when the statements before
    it have returned and [execute_sql] exits on it, the script runner exits
    with that code, and the processes it has started are those of the
    statements up to this one; no later statement is run. *)
Theorem script_stops_at_the_first_fatal_statement (sys : Sys)
    sql_tool path db wh (w : World sys) script w0 before query after c :
  open_read sys path w = (inl script, w0) ->
  split ";" script = (before ++ query :: after)%list ->
  nonblank query = true ->
  let r1 := run_statements sql_tool db wh before w0 in
  out r1 = Ret tt ->
  out (execute_sql query sql_tool db wh (final r1)) = Exit c ->
  let r := execute_sql_scripts sql_tool path db wh w in
  out r = Exit c /\
  spawned (trace r) =
    (map (fun q => build_command q sql_tool db wh) (filter nonblank before)
     ++ [build_command query sql_tool db wh])%list.
Proof.
  intros Hread Hsplit Hnb r1 Hret Hexit. cbv zeta.
  rewrite execute_sql_scripts_unfold.
  rewrite out_bind, trace_bind. cbn [print out final trace].
  rewrite out_bind, trace_bind, read_file_eq, Hread. cbn [out final trace fst snd].
  rewrite Hsplit. unfold run_statements, for_each in *.
  set (body := fun (query0 : string) (_ : unit) =>
                 if truthy (strip query0)
                 then execute_sql query0 sql_tool db wh ;; ret tt
                 else ret tt) in *.
  assert (Hbody : out (body query tt (final r1)) = Exit c /\
                  spawned (trace (body query tt (final r1)))
                    = [build_command query sql_tool db wh]).
  { unfold body. unfold nonblank in Hnb. rewrite Hnb.
    rewrite out_bind, trace_bind, Hexit, app_nil_r.
    split; [reflexivity|].
    destruct (execute_sql_run query sql_tool db wh (final r1)) as (_ & Hs & _).
    now rewrite <- spawned_silent, Hs. }
  destruct Hbody as [Hbo Hbs].
  destruct (for_fold_stops body before query after tt w0 tt Hret) as (Ho & _ & Ht).
  { intros a. fold r1. rewrite Hbo. discriminate. }
  fold r1 in Ho, Ht. rewrite Ho, Ht, Hbo. split; [reflexivity|].
  cbn [app spawned]. rewrite spawned_app, Hbs.
  destruct (run_statements_spawned sql_tool db wh before w0) as [_ Hr].
  cbv zeta in Hr. unfold run_statements, for_each in Hr. fold body in Hr.
  fold r1 in Hr. now rewrite (Hr Hret).
Qed.

(** snowsql rejects the second statement of the action script: the third
    one is never sent. *)
Lemma script_stops_at_the_first_fatal_statement_witness :
  out (execute_sql_scripts (sys := Demo.broken)
         "snowsql" "sql/t/action.sql" "db" (Some "WH") 0) = Exit 1 /\
  spawned (trace (execute_sql_scripts (sys := Demo.broken)
                    "snowsql" "sql/t/action.sql" "db" (Some "WH") 0))
    = [build_command "SELECT 1" "snowsql" "db" (Some "WH");
       build_command " SELECT bad()" "snowsql" "db" (Some "WH")].
Proof.
  exact (script_stops_at_the_first_fatal_statement Demo.broken
           "snowsql" "sql/t/action.sql" "db" (Some "WH") 0
           "SELECT 1; SELECT bad(); SELECT 3;" 0
           ["SELECT 1"] " SELECT bad()" [" SELECT 3"; ""] 1
           eq_refl eq_refl eq_refl eq_refl eq_refl).
Defined.

(** ** The comparator: fatal errors, blank scripts, the summary *)



(** X7. A script without statements (only blank fragments) starts no
    process: the script runner returns after reading it, and the
    comparator returns after printing nothing but the total time. *)
Theorem blank_script_runs_nothing (sys : Sys) script :
  statements script = [] ->
  (forall sql_tool path db wh (w : World sys) w0,
      open_read sys path w = (inl script, w0) ->
      execute_sql_scripts sql_tool path db wh w =
        mkResult (Ret tt) w0
          [Printed ("Executing SQL scripts from: " ++ path ++ " using " ++ sql_tool);
           Opened path]) /\
  (forall db wh path (w : World sys) w1,
      open_read sys path (snd (time_time sys w)) = (inl script, w1) ->
      let t0 := fst (time_time sys w) in
      let t1 := fst (time_time sys w1) in
      run_check_sql db wh path w =
        mkResult (Ret tt) (snd (time_time sys w1))
          [Clock t0; Opened path; Clock t1;
           Printed (total_line sys (time_sub sys t1 t0))]).
Proof.
  intros Hnone. unfold statements in Hnone.
  pose proof (nonblank_none_in _ Hnone) as Hblank.
  split.
  - intros sql_tool path db wh w w0 Hread.
    rewrite execute_sql_scripts_unfold.
    assert (Hloop : run_statements sql_tool db wh (split ";" script) w0
                    = mkResult (Ret tt) w0 []).
    { unfold run_statements, for_each. apply for_fold_idle.
      intros x [] w' Hin. specialize (Hblank x Hin).
      unfold nonblank in Hblank. now rewrite Hblank. }
    apply result_eq.
    + rewrite out_bind. cbn [print out final].
      rewrite out_bind, read_file_eq, Hread. cbn [out final trace fst snd].
      now rewrite Hloop.
    + rewrite final_bind. cbn [print out final].
      rewrite final_bind, read_file_eq, Hread. cbn [out final trace fst snd].
      now rewrite Hloop.
    + rewrite trace_bind. cbn [print out final trace].
      rewrite trace_bind, read_file_eq, Hread. cbn [out final trace fst snd].
      now rewrite Hloop.
  - intros db wh path w w1 Hread. cbv zeta.
    assert (Hloop : check_loop db wh (split ";" script) w1
                    = mkResult (Ret ([], [])) w1 []).
    { unfold check_loop. apply for_fold_idle.
      intros x tests w' Hin. now apply check_query_blank, Hblank. }
    unfold run_check_sql. apply result_eq.
    + rewrite out_bind, now_eq. cbn [out final trace].
      rewrite out_bind, read_file_eq, Hread. cbn [out final trace fst snd].
      rewrite out_bind, Hloop. cbn [out final trace].
      rewrite out_bind, now_eq. reflexivity.
    + rewrite final_bind, now_eq. cbn [out final trace].
      rewrite final_bind, read_file_eq, Hread. cbn [out final trace fst snd].
      rewrite final_bind, Hloop. cbn [out final trace].
      rewrite final_bind, now_eq. reflexivity.
    + rewrite trace_bind, now_eq. cbn [out final trace].
      rewrite trace_bind, read_file_eq, Hread. cbn [out final trace fst snd].
      rewrite trace_bind, Hloop. cbn [out final trace].
      rewrite trace_bind, now_eq. reflexivity.
Qed.

(** A check script of two blank fragments and a trailing line break. *)
Lemma blank_script_runs_nothing_witness :
  run_check_sql (sys := Demo.blank) "db" "WH" "sql/t/check.sql" 0
    = mkResult (sys := Demo.blank) (Ret tt) 2
        [Clock 0; Opened "sql/t/check.sql"; Clock 1;
         Printed (nl ++ "Total Time: 0.00s")].
Proof.
  exact (proj2 (blank_script_runs_nothing Demo.blank
                  ("  ;" ++ nl ++ ";" ++ nl) eq_refl)
           "db" "WH" "sql/t/check.sql" 0 1 eq_refl).
Defined.

Section SummaryLemmas.
Context {sys : Sys}.

(** A loop of iterations that only print. *)
Lemma for_each_prints {X} (lines : X -> list string) (body : X -> M sys unit) xs :
  (forall x w, body x w = mkResult (Ret tt) w (map Printed (lines x))) ->
  forall w : World sys,
    for_each xs body w = mkResult (Ret tt) w (map Printed (flat_map lines xs)).
Proof.
  intros Hbody. unfold for_each.
  induction xs as [|x xs IH]; intros w; [reflexivity|].
  cbn [for_fold flat_map]. unfold bind. rewrite Hbody. cbn [out final trace].
  rewrite IH. cbn [out final trace]. now rewrite map_app.
Qed.

Lemma bind_printed {A} (m : M sys unit) (k : M sys A) (w : World sys) lines :
  m w = mkResult (Ret tt) w (map Printed lines) ->
  bind m (fun _ => k) w =
  mkResult (out (k w)) (final (k w)) (map Printed lines ++ trace (k w))%list.
Proof. intros H. unfold bind. now rewrite H. Qed.

(** The passed section of the summary. *)
Lemma passed_section_prints passed (w : World sys) :
  (match passed with
  | [] => ret tt
  | _ :: _ =>
      print (colored sys (nl ++ "Passed Tests:") "green") ;;
      for_each passed (fun '(test, elapsed_time) =>
        print (colored sys
          ("OK - " ++ test ++ " (" ++
           format_2f sys elapsed_time ++ "s)") "green"))
  end) w = mkResult (Ret tt) w (map Printed (passed_lines sys passed)).
Proof.
  destruct passed as [|p ps]; [reflexivity|].
  rewrite (bind_printed _ _ w [colored sys (nl ++ "Passed Tests:") "green"] eq_refl).
  rewrite (for_each_prints
             (fun '(test, el) =>
                [colored sys ("OK - " ++ test ++ " (" ++ format_2f sys el ++ "s)")
                         "green"])).
  - cbn [out final trace].
    change (passed_lines sys (p :: ps))
      with (colored sys (nl ++ "Passed Tests:") "green"
            :: map (fun '(test, el) =>
                      colored sys ("OK - " ++ test ++ " (" ++ format_2f sys el ++ "s)")
                              "green") (p :: ps)).
    generalize (p :: ps). intros l. f_equal. cbn [map app]. f_equal. f_equal.
    induction l as [|[t e] l IH]; [reflexivity|].
    cbn [flat_map map app]. now rewrite IH.
  - intros [test el] w'. reflexivity.
Qed.

(** The failed section of the summary. *)
Lemma failed_section_prints failed (w : World sys) :
  (match failed with
  | [] => ret tt
  | _ :: _ =>
      print (colored sys
        (nl ++ "Failed Tests and their differences:") "red") ;;
      for_each failed (fun '(test, bend_result, snow_result) =>
        print (colored sys ("Test: " ++ test) "red") ;;
        print (colored sys
          ("bendsql result:" ++ nl ++ bend_result) "red") ;;
        print (colored sys
          ("snowsql result:" ++ nl ++ snow_result) "red"))
  end) w = mkResult (Ret tt) w (map Printed (failed_lines sys failed)).
Proof.
  destruct failed as [|f fs]; [reflexivity|].
  rewrite (bind_printed _ _ w
             [colored sys (nl ++ "Failed Tests and their differences:") "red"]
             eq_refl).
  rewrite (for_each_prints
             (fun '(test, bend_result, snow_result) =>
                [colored sys ("Test: " ++ test) "red";
                 colored sys ("bendsql result:" ++ nl ++ bend_result) "red";
                 colored sys ("snowsql result:" ++ nl ++ snow_result) "red"])).
  - reflexivity.
  - intros [[test b] s] w'. reflexivity.
Qed.

Lemma report_returns failed passed total (w : World sys) :
  out (report failed passed total w) = Ret tt.
Proof.
  unfold report.
  rewrite (bind_printed _ _ w _ (passed_section_prints passed w)).
  rewrite (bind_printed _ _ w _ (failed_section_prints failed w)).
  reflexivity.
Qed.

End SummaryLemmas.

(** X8. The summary of [run_check_sql] always returns and changes nothing
    but the console: it prints the passed header and one line per passed
    test with its elapsed time (nothing when no test passed), then the
    failed header and three lines per failed test with both results
    (nothing when no test failed), then the total time, in the order of the
    two lists. *)
Theorem report_prints_the_summary (sys : Sys) failed passed total (w : World sys) :
  report failed passed total w =
  mkResult (Ret tt) w
    (map Printed (passed_lines sys passed ++ failed_lines sys failed
                  ++ [total_line sys total])).
Proof.
  unfold report.
  rewrite (bind_printed _ _ w _ (passed_section_prints passed w)).
  rewrite (bind_printed _ _ w _ (failed_section_prints failed w)).
  cbn [print out final trace]. now rewrite !map_app.
Qed.

(** ** Exit status of the run *)

Section ExitLemmas.
Context {sys : Sys}.

Lemma exits_with_one_bind {A B} (m : M sys A) (k : A -> M sys B) (w : World sys) :
  exits_with_one (m w) ->
  (forall a, exits_with_one (k a (final (m w)))) ->
  exits_with_one (bind m k w).
Proof.
  unfold exits_with_one. intros Hm Hk c. rewrite out_bind.
  destruct (out (m w)) as [a|c'|e]; [apply Hk | | discriminate].
  intros [= <-]. now apply Hm.
Qed.

Lemma exits_with_one_try {A} (m : M sys A) catches h (w : World sys) :
  exits_with_one (m w) ->
  (forall e, exits_with_one (h e (final (m w)))) ->
  exits_with_one (try_except m catches h w).
Proof.
  unfold exits_with_one, try_except. intros Hm Hh c.
  destruct (out (m w)) as [a|c'|e] eqn:E.
  - rewrite E. discriminate.
  - rewrite E. apply Hm.
  - destruct (catches e); [apply Hh | rewrite E; discriminate].
Qed.

Lemma exits_with_one_never {A} (r : result sys A) :
  (forall c, out r <> Exit c) -> exits_with_one r.
Proof. intros H c Hc. now destruct (H c). Qed.

Lemma exits_with_one_print {A} text (k : M sys A) (w : World sys) :
  exits_with_one (k w) -> exits_with_one (bind (print text) (fun _ => k) w).
Proof.
  intros H. apply exits_with_one_bind; [|intros _; exact H].
  apply exits_with_one_never. discriminate.
Qed.

Lemma exits_with_one_for_fold {X S} (body : X -> S -> M sys S) xs :
  (forall x s w, exits_with_one (body x s w)) ->
  forall s (w : World sys), exits_with_one (for_fold xs body s w).
Proof.
  intros Hbody. induction xs as [|x xs IH]; intros s w.
  - apply exits_with_one_never. discriminate.
  - cbn [for_fold]. apply exits_with_one_bind; [apply Hbody | intros a; apply IH].
Qed.

Lemma exits_with_one_execute_sql query sql_tool db wh (w : World sys) :
  exits_with_one (execute_sql query sql_tool db wh w).
Proof.
  intros c. destruct (execute_sql_run query sql_tool db wh w) as (_ & _ & ->).
  destruct (fst _); [|discriminate]. unfold classify.
  destruct (contains _ query); [discriminate|].
  destruct (error_pattern _ _); [now intros [= <-] | discriminate].
Qed.

Lemma exits_with_one_execute_then_ret query sql_tool db wh (w : World sys) :
  exits_with_one ((execute_sql query sql_tool db wh ;; ret tt) w).
Proof.
  apply exits_with_one_bind; [apply exits_with_one_execute_sql|].
  intros _. apply exits_with_one_never. discriminate.
Qed.

Lemma exits_with_one_execute_sql_scripts sql_tool path db wh (w : World sys) :
  exits_with_one (execute_sql_scripts sql_tool path db wh w).
Proof.
  unfold execute_sql_scripts. apply exits_with_one_print.
  apply exits_with_one_bind.
  - apply exits_with_one_never. intros c. now rewrite read_file_eq; destruct (fst _).
  - intros script. unfold for_each. apply exits_with_one_for_fold.
    intros x s w'. destruct (truthy (strip x)).
    + apply exits_with_one_execute_then_ret.
    + apply exits_with_one_never. discriminate.
Qed.

Lemma exits_with_one_setup_database db sql_tool (w : World sys) :
  exits_with_one (setup_database db sql_tool w).
Proof.
  unfold setup_database.
  apply exits_with_one_bind; [|intros _; apply exits_with_one_never; discriminate].
  destruct (sql_tool =? "bendsql").
  - apply exits_with_one_bind; [|intros _; apply exits_with_one_execute_then_ret].
    apply exits_with_one_try; [apply exits_with_one_execute_then_ret|].
    intros e. apply exits_with_one_never. discriminate.
  - apply exits_with_one_bind; [apply exits_with_one_execute_sql|].
    intros _. apply exits_with_one_execute_then_ret.
Qed.

Lemma exits_with_one_check_query db wh query tests (w : World sys) :
  exits_with_one (check_query db wh query tests w).
Proof.
  destruct tests as [failed passed]. intros c.
  destruct (nonblank query) eqn:Hnb.
  - pose proof (check_query_spec db wh query failed passed w Hnb) as H.
    cbv zeta in H.
    pose proof (exits_with_one_execute_sql query "bendsql" db None
                  (snd (time_time sys w))) as Hb.
    unfold exits_with_one in Hb.
    destruct (out (execute_sql query "bendsql" db None _)) as [bend|cb|e].
    + pose proof (exits_with_one_execute_sql query "snowsql" db (Some wh)
                    (final (execute_sql query "bendsql" db None
                              (snd (time_time sys w))))) as Hs.
      unfold exits_with_one in Hs.
      destruct (out (execute_sql query "snowsql" db (Some wh) _)) as [snow|cs|e].
      * destruct H as (-> & _). discriminate.
      * destruct H as (-> & _). intros [= <-]. now apply Hs.
      * destruct H as (-> & _). discriminate.
    + destruct H as (-> & _). intros [= <-]. now apply Hb.
    + destruct H as (-> & _). discriminate.
  - rewrite check_query_blank by assumption. discriminate.
Qed.

Lemma exits_with_one_run_check_sql db wh path (w : World sys) :
  exits_with_one (run_check_sql db wh path w).
Proof.
  unfold run_check_sql.
  apply exits_with_one_bind.
  { apply exits_with_one_never. intros c. now rewrite now_eq. }
  intros t0. apply exits_with_one_bind.
  { apply exits_with_one_never. intros c. now rewrite read_file_eq; destruct (fst _). }
  intros text. apply exits_with_one_bind.
  { unfold check_loop. apply exits_with_one_for_fold.
    intros x s w'. apply exits_with_one_check_query. }
  intros [failed passed]. apply exits_with_one_bind.
  { apply exits_with_one_never. intros c. now rewrite now_eq. }
  intros t1. apply exits_with_one_never. intros c. now rewrite report_returns.
Qed.

Lemma exits_with_one_setup_and_execute sql_tool base db wh (w : World sys) :
  exits_with_one (setup_and_execute sql_tool base db wh w).
Proof.
  unfold setup_and_execute. cbv zeta.
  apply exits_with_one_bind; [apply exits_with_one_setup_database|]. intros _.
  apply exits_with_one_bind; [apply exits_with_one_execute_sql_scripts|]. intros _.
  apply exits_with_one_execute_sql_scripts.
Qed.

End ExitLemmas.

Section MainBody.
Context {sys : Sys}.

(** From the parsed arguments on, the only exit code is 1. *)
Lemma main_body_exits_with_one (args : Args) (w : World sys) :
  exits_with_one (main args w).
Proof.
  unfold main. cbv zeta.
  destruct (run_check_only args); [apply exits_with_one_run_check_sql|].
  apply exits_with_one_bind; [|intros _; apply exits_with_one_run_check_sql].
  destruct (runbend args); [|destruct (runsnow args)].
  - apply exits_with_one_print, exits_with_one_setup_and_execute.
  - apply exits_with_one_print, exits_with_one_setup_and_execute.
  - apply exits_with_one_print.
    apply exits_with_one_bind; [apply exits_with_one_setup_and_execute|].
    intros _. apply exits_with_one_setup_and_execute.
Qed.

End MainBody.

(** X9. When a run of [main()] ends through [sys.exit], either
    [parse_arguments] itself has ended it (argparse, on the command line,
    before anything else runs), or the arguments were parsed and the exit
    code is 1. *)
Theorem main_exits_with_one_unless_argparse_exits (sys : Sys)
    (parse_arguments : M sys Args) (w : World sys) c :
  out (main_program parse_arguments w) = Exit c ->
  out (parse_arguments w) = Exit c \/
  ((exists args, out (parse_arguments w) = Ret args) /\ c = 1%Z).
Proof.
  unfold main_program. rewrite out_bind.
  destruct (out (parse_arguments w)) as [args|c'|e] eqn:E.
  - intros H. right. split; [now exists args|].
    now apply (main_body_exits_with_one args (final (parse_arguments w))).
  - intros [= ->]. now left.
  - discriminate.
Qed.

(** The check-only run on the fixtures that bendsql rejects ends with code
    1; a command line that argparse refuses ends with argparse's code 2. *)
Lemma main_exits_with_one_unless_argparse_exits_witness :
  (out (ret (sys := Demo.broken) Demo.args_check 0) = Exit 1%Z \/
   ((exists args, out (ret (sys := Demo.broken) Demo.args_check 0) = Ret args) /\
    1%Z = 1%Z)) /\
  (out (sys_exit (sys := Demo.broken) (A := Args) 2 0) = Exit 2%Z \/
   ((exists args, out (sys_exit (sys := Demo.broken) (A := Args) 2 0) = Ret args) /\
    2%Z = 1%Z)).
Proof.
  split.
  - exact (main_exits_with_one_unless_argparse_exits Demo.broken
             (ret Demo.args_check) 0 1%Z eq_refl).
  - exact (main_exits_with_one_unless_argparse_exits Demo.broken
             (sys_exit 2) 0 2%Z eq_refl).
Defined.

Section ReturnLemmas.
Context {sys : Sys}.

Lemma out_bind_ret {A B} (m : M sys A) (k : A -> M sys B) (w : World sys) a :
  out (m w) = Ret a -> out (bind m k w) = out (k a (final (m w))).
Proof. intros H. now rewrite out_bind, H. Qed.

Lemma try_except_ret {A} (m : M sys A) catches h (w : World sys) a :
  out (m w) = Ret a -> try_except m catches h w = m w.
Proof. intros H. unfold try_except. now rewrite H. Qed.

Lemma for_fold_returns {X S} (body : X -> S -> M sys S) xs :
  (forall x s w, In x xs -> exists s', out (body x s w) = Ret s') ->
  forall s (w : World sys), exists s', out (for_fold xs body s w) = Ret s'.
Proof.
  induction xs as [|x xs IH]; intros Hbody s w.
  - now exists s.
  - cbn [for_fold]. destruct (Hbody x s w (or_introl eq_refl)) as [s1 H1].
    rewrite (out_bind_ret _ _ _ _ H1). apply IH.
    intros x' s' w' Hin. apply Hbody. now right.
Qed.

Lemma unit_ret (o : outcome unit) : (exists u, o = Ret u) -> o = Ret tt.
Proof. now intros [[] ->]. Qed.

(** A script returns when each of its statements returns. *)
Lemma execute_sql_scripts_returns sql_tool path db wh (w : World sys) script w0 :
  open_read sys path w = (inl script, w0) ->
  (forall q (w' : World sys), In q (statements script) ->
                exists txt, out (execute_sql q sql_tool db wh w') = Ret txt) ->
  out (execute_sql_scripts sql_tool path db wh w) = Ret tt.
Proof.
  intros Hread Hq. unfold execute_sql_scripts.
  rewrite out_bind. cbn [print out final].
  rewrite out_bind, read_file_eq, Hread. cbn [out final fst snd].
  apply unit_ret. unfold for_each. apply for_fold_returns.
  intros x [] w' Hin. destruct (truthy (strip x)) eqn:Hnb; [|now exists tt].
  destruct (Hq x w') as [txt Ht].
  { unfold statements. apply filter_In. now split. }
  exists tt. now rewrite (out_bind_ret _ _ _ _ Ht).
Qed.

Lemma setup_database_returns db sql_tool (w : World sys) :
  quiet_engines sys -> out (setup_database db sql_tool w) = Ret tt.
Proof.
  intros Hq. unfold setup_database.
  assert (Hexec : forall q d (w' : World sys),
             out ((execute_sql q sql_tool d None ;; ret tt) w') = Ret tt).
  { intros q d w'. destruct (execute_sql_quiet q sql_tool d None w' Hq) as [txt Ht].
    now rewrite (out_bind_ret _ _ _ _ Ht). }
  rewrite out_bind.
  assert (Hbody : out ((if sql_tool =? "bendsql"
            then
             try_except
               (execute_sql ("DROP DATABASE IF EXISTS " ++ db ++ ";") sql_tool
                  "default" None ;; ret tt)
               (fun _ => true)
               (fun e => print
                  ("Warning: Could not drop database (it may not exist): "
                   ++ exn_str e)) ;;
             execute_sql ("CREATE DATABASE " ++ db ++ ";") sql_tool "default" None ;;
             ret tt
            else
             execute_sql ("DROP DATABASE IF EXISTS " ++ db ++ ";") sql_tool db None ;;
             execute_sql ("CREATE DATABASE " ++ db ++ ";") sql_tool db None ;;
             ret tt) w) = Ret tt).
  { destruct (sql_tool =? "bendsql").
    - rewrite out_bind, !(try_except_ret _ _ _ _ tt (Hexec _ _ _)), Hexec.
      apply Hexec.
    - destruct (execute_sql_quiet ("DROP DATABASE IF EXISTS " ++ db ++ ";")
                  sql_tool db None w Hq) as [txt Ht].
      rewrite (out_bind_ret _ _ _ _ Ht). apply Hexec. }
  now rewrite Hbody.
Qed.

Lemma setup_and_execute_returns sql_tool base db wh (w : World sys) :
  quiet_engines sys -> readable_files sys ->
  out (setup_and_execute sql_tool base db wh w) = Ret tt.
Proof.
  intros Hq Hr. unfold setup_and_execute. cbv zeta.
  assert (Hscript : forall path (w' : World sys),
             out (execute_sql_scripts sql_tool path db wh w') = Ret tt).
  { intros path w'. destruct (Hr path w') as (txt & w0 & Hread).
    apply (execute_sql_scripts_returns _ _ _ _ _ txt w0 Hread).
    intros q w'' _. now apply execute_sql_quiet. }
  rewrite (out_bind_ret _ _ _ _ (setup_database_returns db sql_tool w Hq)).
  rewrite (out_bind_ret _ _ _ _ (Hscript _ _)). apply Hscript.
Qed.

Lemma run_check_sql_returns db wh path (w : World sys) :
  quiet_engines sys -> readable_files sys ->
  out (run_check_sql db wh path w) = Ret tt.
Proof.
  intros Hq Hr. unfold run_check_sql.
  rewrite out_bind, now_eq. cbn [out final].
  destruct (Hr path (snd (time_time sys w))) as (txt & w0 & Hread).
  rewrite out_bind, read_file_eq, Hread. cbn [out final fst snd].
  destruct (check_loop_returns db wh (split ";" txt) Hq ([], []) w0)
    as [[failed passed] Hloop].
  unfold check_loop. rewrite (out_bind_ret _ _ _ _ Hloop).
  rewrite out_bind, now_eq. cbn [out final]. apply report_returns.
Qed.

End ReturnLemmas.

(** X10. When every file can be read and no process fails to start or
    reports an error, the run returns normally in every mode, also when the
    two engines disagree: failed tests are printed, they do not change how
    the run ends. *)
Theorem main_returns_whatever_the_verdicts (sys : Sys) (args : Args) (w : World sys) :
  quiet_engines sys ->
  readable_files sys ->
  out (main args w) = Ret tt.
Proof.
  intros Hq Hr. unfold main. cbv zeta.
  destruct (run_check_only args); [now apply run_check_sql_returns|].
  assert (Hpipe : forall tool wh' (w' : World sys) text,
             out ((print text ;;
                   setup_and_execute tool ("sql/" ++ case args) (database args) wh') w')
             = Ret tt).
  { intros tool wh' w' text. rewrite out_bind. cbn [print out final].
    now apply setup_and_execute_returns. }
  assert (Hsetup : out ((if runbend args
             then
              print "Setting up and executing scripts for bendsql..." ;;
              setup_and_execute "bendsql" ("sql/" ++ case args) (database args) None
             else
              if runsnow args
              then
               print "Setting up and executing scripts for snowsql..." ;;
               setup_and_execute "snowsql" ("sql/" ++ case args) (database args)
                 (Some (warehouse args))
              else
               print "Setting up and executing scripts for both bendsql and snowsql..." ;;
               setup_and_execute "bendsql" ("sql/" ++ case args) (database args) None ;;
               setup_and_execute "snowsql" ("sql/" ++ case args) (database args)
                 (Some (warehouse args))) w) = Ret tt).
  { destruct (runbend args); [apply Hpipe|].
    destruct (runsnow args); [apply Hpipe|].
    rewrite out_bind. cbn [print out final].
    rewrite (out_bind_ret _ _ _ _ (setup_and_execute_returns _ _ _ _ _ Hq Hr)).
    now apply setup_and_execute_returns. }
  rewrite (out_bind_ret _ _ _ _ Hsetup). now apply run_check_sql_returns.
Qed.

Lemma uniform_quiet text : quiet_engines (Demo.uniform text).
Proof.
  intros argv w. cbn [subprocess_run Demo.uniform].
  exists (match Demo.respond Demo.engines argv with
          | inl cp => cp
          | inr _ => mkCompleted 0 "" ""
          end), w.
  unfold Demo.engines, Demo.respond.
  repeat match goal with
         | |- context [if ?c then _ else _] => destruct c
         end; split; reflexivity.
Defined.

Lemma uniform_readable text : readable_files (Demo.uniform text).
Proof. intros path w. now exists text, w. Defined.

(** Every fixture is [SELECT 5;], on which the engines answer 5 and 6: the
    difference is printed and the run returns. *)
Lemma main_returns_whatever_the_verdicts_witness :
  out (main (sys := Demo.uniform "SELECT 5;") Demo.args_both 0) = Ret tt /\
  In (Printed ("DIFFERENCE FOUND" ++ nl))
     (trace (main (sys := Demo.uniform "SELECT 5;") Demo.args_both 0)).
Proof.
  split.
  - exact (main_returns_whatever_the_verdicts (Demo.uniform "SELECT 5;")
             Demo.args_both 0 (uniform_quiet _) (uniform_readable _)).
  - vm_compute. tauto.
Defined.

(** X11. A script whose statements all contain [DROP DATABASE] never stops:
    when every process completes, whatever it prints, the script runner
    returns, having started one process per statement. *)
Theorem drop_database_script_always_returns (sys : Sys)
    sql_tool path db wh (w : World sys) script w0 :
  processes_complete sys ->
  open_read sys path w = (inl script, w0) ->
  Forall (fun q => contains "DROP DATABASE" q = true) (statements script) ->
  out (execute_sql_scripts sql_tool path db wh w) = Ret tt /\
  spawned (trace (execute_sql_scripts sql_tool path db wh w))
    = script_commands sql_tool db wh script.
Proof.
  intros Hc Hread Hdrop.
  assert (Hret : out (execute_sql_scripts sql_tool path db wh w) = Ret tt).
  { apply (execute_sql_scripts_returns _ _ _ _ _ script w0 Hread).
    intros q w' Hin. rewrite Forall_forall in Hdrop. specialize (Hdrop q Hin).
    destruct (Hc (build_command q sql_tool db wh) w') as (cp & w'' & Hrun).
    exists (stdout cp).
    destruct (execute_sql_run q sql_tool db wh w') as (_ & _ & Ho).
    rewrite Hrun in Ho. cbn [fst] in Ho. rewrite Ho. unfold classify.
    now rewrite Hdrop. }
  split; [exact Hret|].
  apply (execute_sql_scripts_spawned sql_tool path db wh w script);
    [now rewrite Hread | exact Hret].
Qed.

Lemma stubborn_completes : processes_complete Demo.stubborn.
Proof.
  intros argv w. cbn [subprocess_run Demo.stubborn Demo.scripted].
  exists (match Demo.respond
                  [("bendsql", "DROP DATABASE",
                    inl (mkCompleted 1 "" "Error: database in use"))] argv with
          | inl cp => cp
          | inr _ => mkCompleted 0 "" ""
          end), w.
  unfold Demo.respond.
  repeat match goal with
         | |- context [if ?c then _ else _] => destruct c
         end; reflexivity.
Defined.

(** bendsql answers both drops of the script with an error text. *)
Lemma drop_database_script_always_returns_witness :
  out (execute_sql_scripts (sys := Demo.stubborn)
         "bendsql" "sql/t/action.sql" "db" None 0) = Ret tt /\
  spawned (trace (execute_sql_scripts (sys := Demo.stubborn)
                    "bendsql" "sql/t/action.sql" "db" None 0))
    = [["bendsql"; "--query=DROP DATABASE a"; "-D"; "db"];
       ["bendsql"; "--query= DROP DATABASE b"; "-D"; "db"]].
Proof.
  apply (drop_database_script_always_returns Demo.stubborn
           "bendsql" "sql/t/action.sql" "db" None 0
           "DROP DATABASE a; DROP DATABASE b;" 0 stubborn_completes eq_refl).
  change (statements "DROP DATABASE a; DROP DATABASE b;")
    with ["DROP DATABASE a"; " DROP DATABASE b"].
  constructor; [reflexivity|]. constructor; [reflexivity|]. constructor.
Defined.

(** ** Test identifiers: shape *)

Section ContainsLemmas.

Lemma startswith_app needle post : startswith needle (needle ++ post) = true.
Proof.
  induction needle as [|c n IH]; [reflexivity|].
  cbn. now rewrite Ascii.eqb_refl, IH.
Qed.

Lemma startswith_empty s : startswith "" s = true.
Proof. now destruct s. Qed.

Lemma contains_skip needle pre s :
  contains needle s = true -> contains needle (pre ++ s) = true.
Proof.
  intros H. induction pre as [|c p IH]; [exact H|].
  cbn [append contains]. rewrite IH. apply orb_true_r.
Qed.

(** [needle in pre + needle + post] *)
Lemma contains_middle needle pre post :
  contains needle (pre ++ needle ++ post) = true.
Proof.
  apply contains_skip.
  destruct (needle ++ post) eqn:E; cbn [contains];
    rewrite <- E, startswith_app; reflexivity.
Qed.

Lemma append_assoc3 (a b c : string) : (a ++ b) ++ c = a ++ (b ++ c).
Proof. induction a as [|x a IH]; cbn; [reflexivity | now rewrite IH]. Qed.

End ContainsLemmas.

(** X12. The identifier of a statement is either [Unknown Query] or the
    token of a tag that stands in the statement: a non-empty text of word
    characters and dashes, with no white space and no colon. *)
Theorem query_identifier_is_a_token_or_unknown (query : string) :
  query_identifier query = "Unknown Query" \/
  (query_identifier query <> "" /\
   all_chars word_or_dash (query_identifier query) = true /\
   all_chars (fun c => negb (isspace c) && negb (Ascii.eqb ":" c))
             (query_identifier query) = true /\
   exists pre rest, query = pre ++ rest /\ tagged (query_identifier query) rest).
Proof.
  unfold query_identifier.
  destruct (search identifier_re query) as [g|] eqn:E; [right | now left].
  apply search_some in E as (pre & rest & -> & Hm).
  apply match_identifier_sound in Hm.
  rewrite (strip_no_space g (tagged_token_has_no_space g rest Hm)).
  pose proof Hm as (ws & post & _ & _ & Hne & Hword).
  repeat split; try assumption.
  - clear - Hword. induction g as [|c g IH]; [reflexivity|].
    cbn [all_chars] in *. apply andb_prop in Hword as [Hc Hg].
    now rewrite (word_not_space c Hc), (word_not_colon c Hc), (IH Hg).
  - now exists pre, rest.
Qed.

(** X13. A statement without two dashes in a row, or without a colon, has
    the identifier [Unknown Query]. *)
Theorem query_identifier_needs_dashes_and_colon (query : string) :
  contains "--" query = false \/ contains ":" query = false ->
  query_identifier query = "Unknown Query".
Proof.
  intros Hmiss. apply query_identifier_unknown.
  intros pre rest tok -> (ws & post & -> & _ & _ & _).
  destruct Hmiss as [H | H].
  - pose proof (contains_middle "--" pre (ws ++ tok ++ ":" ++ post)) as Hc.
    congruence.
  - pose proof (contains_middle ":" (pre ++ "--" ++ ws ++ tok) post) as Hc.
    rewrite !append_assoc3 in Hc. cbn [append] in Hc, H. congruence.
Qed.

(** A statement with single dashes and a colon, and a comment without
    colon. *)
Lemma query_identifier_needs_dashes_and_colon_witness :
  query_identifier "SELECT a - b AS c, '12:30' FROM t" = "Unknown Query" /\
  query_identifier ("-- T-1 first" ++ nl ++ "SELECT 1") = "Unknown Query".
Proof.
  split.
  - apply query_identifier_needs_dashes_and_colon. left. reflexivity.
  - apply query_identifier_needs_dashes_and_colon. right. reflexivity.
Defined.

(** ** Provisioning the other engine, and the stages of a pipeline *)

(** X14. For a client other than bendsql, [setup_database] sends the drop
    and then the create to the database being provisioned, without a
    warehouse.  The drop never ends the run through [sys.exit], but here an
    exception of the drop is not caught: it ends provisioning before the
    create is sent. *)
Theorem setup_database_other_engine (sys : Sys) db sql_tool (w : World sys) :
  sql_tool <> "bendsql" ->
  let drop_query := "DROP DATABASE IF EXISTS " ++ db ++ ";" in
  let create_query := "CREATE DATABASE " ++ db ++ ";" in
  let rd := execute_sql drop_query sql_tool db None w in
  let rc := execute_sql create_query sql_tool db None (final rd) in
  let r := setup_database db sql_tool w in
  (forall c, out rd <> Exit c) /\
  (forall txt, out rd = Ret txt ->
     spawned (trace r) = [build_command drop_query sql_tool db None;
                          build_command create_query sql_tool db None] /\
     out r = match out rc with
             | Ret _ => Ret tt
             | Exit c => Exit c
             | Raise e => Raise e
             end) /\
  (forall e, out rd = Raise e ->
     out r = Raise e /\
     spawned (trace r) = [build_command drop_query sql_tool db None]).
Proof.
  intros Hne. cbv zeta. apply String.eqb_neq in Hne.
  set (drop_query := "DROP DATABASE IF EXISTS " ++ db ++ ";").
  set (create_query := "CREATE DATABASE " ++ db ++ ";").
  destruct (execute_sql_run drop_query sql_tool db None w) as (_ & Hsd & Hod).
  set (rd := execute_sql drop_query sql_tool db None w) in *.
  destruct (execute_sql_run create_query sql_tool db None (final rd)) as (_ & Hsc & _).
  assert (Hnever : forall c, out rd <> Exit c).
  { intros c. rewrite Hod. destruct (fst _); [|discriminate].
    unfold classify, drop_query. rewrite drop_query_is_drop. discriminate. }
  split; [exact Hnever|].
  unfold setup_database. rewrite Hne. fold drop_query create_query.
  rewrite out_bind, trace_bind, spawned_app.
  rewrite out_bind, trace_bind, spawned_app. fold rd.
  rewrite <- (spawned_silent (trace rd)), Hsd. cbn [spawned].
  split.
  - intros txt Hret. rewrite Hret.
    rewrite out_bind, trace_bind, spawned_app.
    rewrite <- (spawned_silent (trace (execute_sql create_query _ _ _ _))), Hsc.
    cbn [spawned].
    destruct (out (execute_sql create_query sql_tool db None (final rd)));
      split; reflexivity.
  - intros e Hraise. rewrite Hraise. split; reflexivity.
Qed.

(** snowsql cannot be reached for the drop: provisioning raises and the
    create is never sent. *)
Lemma setup_database_other_engine_witness :
  out (setup_database (sys := Demo.offline) "db" "snowsql" 0)
    = Raise (OtherException "connection refused") /\
  spawned (trace (setup_database (sys := Demo.offline) "db" "snowsql" 0))
    = [["snowsql"; "--query"; "DROP DATABASE IF EXISTS db;";
        "--dbname"; "db"; "--schemaname"; "PUBLIC";
        "-o"; "output_format=tsv"; "-o"; "header=false";
        "-o"; "timing=false"; "-o"; "friendly=false"]].
Proof.
  assert (Hne : "snowsql" <> "bendsql") by discriminate.
  destruct (setup_database_other_engine Demo.offline "db" "snowsql" 0 Hne)
    as (_ & _ & Hraise).
  exact (Hraise (OtherException "connection refused") eq_refl).
Defined.

(** X15. The three stages of an engine's pipeline run in order and each
    one only when the one before has returned: no fixture is read when
    provisioning fails, the action script is not read when the set-up
    script fails, and otherwise the pipeline ends as the action script
    does. *)
Theorem setup_and_execute_stages (sys : Sys) sql_tool base db wh (w : World sys) :
  let setup_path :=
    base ++ "/" ++ (if sql_tool =? "bendsql" then "bend" else "snow") ++ "/setup.sql" in
  let action_path := base ++ "/action.sql" in
  let r := setup_and_execute sql_tool base db wh w in
  let r1 := setup_database db sql_tool w in
  let r2 := execute_sql_scripts sql_tool setup_path db wh (final r1) in
  let r3 := execute_sql_scripts sql_tool action_path db wh (final r2) in
  match out r1 with
  | Ret _ =>
      match out r2 with
      | Ret _ =>
          out r = out r3 /\ final r = final r3 /\
          opened (trace r) = [setup_path; action_path]
      | Exit c => out r = Exit c /\ final r = final r2 /\ opened (trace r) = [setup_path]
      | Raise e => out r = Raise e /\ final r = final r2 /\ opened (trace r) = [setup_path]
      end
  | Exit c => out r = Exit c /\ final r = final r1 /\ opened (trace r) = []
  | Raise e => out r = Raise e /\ final r = final r1 /\ opened (trace r) = []
  end.
Proof.
  cbv zeta. unfold setup_and_execute. cbv zeta.
  rewrite out_bind, final_bind, trace_bind, opened_app, opened_setup_database.
  destruct (out (setup_database db sql_tool w)); [|repeat split..].
  rewrite out_bind, final_bind, trace_bind, opened_app, !opened_execute_sql_scripts.
  destruct (out (execute_sql_scripts sql_tool _ db wh _)); repeat split.
  now rewrite opened_execute_sql_scripts.
Qed.

(** ** Concatenated scripts *)

Section SplitLemmas.

Lemma split_app_terminator sep a b :
  split sep (a ++ String sep b) = (split sep a ++ split sep b)%list.
Proof.
  induction a as [|c r IH]; cbn [append split].
  - now rewrite Ascii.eqb_refl.
  - rewrite IH. destruct (Ascii.eqb c sep); [reflexivity|].
    destruct (split sep r) as [|f fs] eqn:E; [now apply split_not_nil in E|].
    reflexivity.
Qed.

End SplitLemmas.

(** X16. Splitting distributes over scripts joined by a terminator: the
    fragments and the statements of [a;b] are those of [a] followed by
    those of [b].  So a terminator after the last statement, or before the
    first one, changes nothing. *)
Theorem statements_of_joined_scripts (a b : string) :
  split ";" (a ++ ";" ++ b) = (split ";" a ++ split ";" b)%list /\
  statements (a ++ ";" ++ b) = (statements a ++ statements b)%list /\
  statements (a ++ ";") = statements a /\
  statements (";" ++ a) = statements a.
Proof.
  assert (Hsplit : forall x y,
             split ";" (x ++ ";" ++ y) = (split ";" x ++ split ";" y)%list).
  { intros x y. apply (split_app_terminator ";"). }
  assert (Hst : forall x y,
             statements (x ++ ";" ++ y) = (statements x ++ statements y)%list).
  { intros x y. unfold statements. now rewrite Hsplit, filter_app. }
  split; [apply Hsplit|]. split; [apply Hst|]. split.
  - change (a ++ ";") with (a ++ ";" ++ ""). rewrite Hst.
    change (statements "") with (@nil string). apply app_nil_r.
  - change (";" ++ a) with ("" ++ ";" ++ a). now rewrite Hst.
Qed.

(** ** The text tests of the script *)

Section TestLemmas.

Lemma startswith_inv needle s :
  startswith needle s = true -> exists post, s = needle ++ post.
Proof.
  revert s. induction needle as [|c n IH]; intros s H.
  - now exists s.
  - destruct s as [|d r]; [discriminate|]. cbn in H.
    apply andb_prop in H as [Hc Hr]. apply Ascii.eqb_eq in Hc as ->.
    destruct (IH r Hr) as [post ->]. now exists post.
Qed.

Lemma lstrip_cases q :
  (lstrip q = "" /\ all_chars isspace q = true) \/
  (exists c r, lstrip q = String c r /\ isspace c = false /\
               all_chars isspace q = false).
Proof.
  induction q as [|c r IH]; [now left|].
  cbn [lstrip all_chars]. destruct (isspace c) eqn:Hc.
  - destruct IH as [[Hl Ha] | (c' & r' & Hl & Hc' & Ha)].
    + left. now rewrite Hl, Ha.
    + right. exists c', r'. now rewrite Hl, Ha.
  - right. now exists c, r.
Qed.

Lemma rstrip_keeps_head c r : isspace c = false -> rstrip (String c r) <> "".
Proof.
  intros Hc. cbn [rstrip]. destruct (rstrip r); [rewrite Hc|]; discriminate.
Qed.

End TestLemmas.

(** X17. The substring test of [execute_sql] ([needle in text]) holds
    exactly when the needle stands somewhere in the text: the tolerance for
    [DROP DATABASE] and the error patterns look at any position, whatever
    surrounds the match. *)
Theorem contains_iff_occurs (needle text : string) :
  contains needle text = true <-> exists pre post, text = pre ++ needle ++ post.
Proof.
  split.
  - induction text as [|c r IH]; cbn [contains].
    + rewrite orb_false_r. intros H.
      apply startswith_inv in H as [post ->]. now exists "", post.
    + intros H. apply orb_prop in H as [H | H].
      * apply startswith_inv in H as [post ->]. now exists "", post.
      * destruct (IH H) as (pre & post & ->). now exists (String c pre), post.
  - intros (pre & post & ->). apply contains_middle.
Qed.

(** A statement that only quotes the words is exempt from fatal errors. *)
Lemma contains_iff_occurs_witness :
  contains "DROP DATABASE" "SELECT 'DROP DATABASE' AS note" = true.
Proof.
  apply (proj2 (contains_iff_occurs "DROP DATABASE" "SELECT 'DROP DATABASE' AS note")).
  now exists "SELECT '", "' AS note".
Defined.

(** X18. A fragment of a script is run as a statement exactly when it has
    a character that is not white space. *)
Theorem nonblank_iff_some_visible_character (query : string) :
  nonblank query = negb (all_chars isspace query).
Proof.
  unfold nonblank, strip.
  destruct (lstrip_cases query) as [[-> ->] | (c & r & -> & Hc & ->)];
    [reflexivity|].
  pose proof (rstrip_keeps_head c r Hc) as H.
  now destruct (rstrip (String c r)).
Qed.
